(** * Engine.IO asynchronous server: session table, dispatcher, assembler

    A shallow embedding of [engineio/asyncio_server.py] (class
    [AsyncServer]) and the properties of its request handling.

    Modelling decisions.
    - The server object is a record [World] threaded through a state and
      exception monad [M]; a Python exception is the [Raise] outcome.
    - [self.sockets] is a finite map from session ids to sockets.  A socket
      is an object shared between the table and local variables: the model
      keeps the object's state in the table entry and rewrites that entry
      after every method call on the object.  The loop over the values of
      the table follows the order of [map_to_list].
    - The per-session socket ([asyncio_socket.AsyncSocket]), the packet and
      payload codecs, the request/response adapter, [parse_qs], the
      compression routines and the application's event handlers are
      collaborators from outside this file.  They are parameters: functions
      of the state they own, which may fail with any exception.  They act on
      their own state only, never on the session table.
    - The methods inherited from [server.Server] are not in the source at
      hand; each is modelled from the specification and marked as such.
    - Every call that is awaited, or made on a socket, is recorded as an
      [event] together with the session table as it stands when the call
      starts, which is what a request interleaved at that suspension point
      would find, and with the exception the call ended with, if any.
    - A dictionary that reaches [r] is a response descriptor.  Strings are
      sequences of 8-bit characters.  The ping settings are whole seconds,
      so that [int(self.ping_timeout * 1000)] is exact. *)

From Stdlib Require Import ZArith Ascii String List Bool Lia.
From stdpp Require Import base option list gmap strings pretty fin_maps.

Local Open Scope string_scope.
Local Open Scope list_scope.
Local Open Scope Z_scope.

(** ** Python string operations used by the server *)

Module PyStr.

(** [str.split(sep)] for a one-character separator. *)
Fixpoint split (sep : ascii) (s : string) : list string :=
  match s with
  | EmptyString => [EmptyString]
  | String c rest =>
      if Ascii.eqb c sep then EmptyString :: split sep rest
      else match split sep rest with
           | [] => [String c EmptyString]
           | h :: t => String c h :: t
           end
  end.

(** [str.isspace] on one character of the 8-bit range. *)
Definition is_space (c : ascii) : bool :=
  let n := nat_of_ascii c in
  ((9 <=? n) && (n <=? 13) || (28 <=? n) && (n <=? 32)
   || (n =? 133) || (n =? 160))%nat.

Fixpoint lstrip (s : string) : string :=
  match s with
  | EmptyString => EmptyString
  | String c rest => if is_space c then lstrip rest else s
  end.

Fixpoint rstrip (s : string) : string :=
  match s with
  | EmptyString => EmptyString
  | String c rest =>
      match rstrip rest with
      | EmptyString => if is_space c then EmptyString else String c EmptyString
      | r => String c r
      end
  end.

(** [str.strip()] *)
Definition strip (s : string) : string := rstrip (lstrip s).

Definition lower_char (c : ascii) : ascii :=
  let n := nat_of_ascii c in
  if ((65 <=? n) && (n <=? 90) || (192 <=? n) && (n <=? 214)
      || (216 <=? n) && (n <=? 222))%nat
  then ascii_of_nat (n + 32) else c.

(** [str.lower()] *)
Fixpoint lower (s : string) : string :=
  match s with
  | EmptyString => EmptyString
  | String c rest => String (lower_char c) (lower rest)
  end.

(** [x in l] for a list of strings. *)
Definition mem (x : string) (l : list string) : bool :=
  existsb (String.eqb x) l.

(** [l[0]] *)
Definition first {A} (l : list A) : option A := head l.

(** [sep.join(l)] for a one-character separator. *)
Fixpoint join (sep : ascii) (l : list string) : string :=
  match l with
  | [] => EmptyString
  | [x] => x
  | x :: rest => x +:+ String sep (join sep rest)
  end.

(** [c in s] *)
Fixpoint has (c : ascii) (s : string) : bool :=
  match s with
  | EmptyString => false
  | String d rest => Ascii.eqb d c || has c rest
  end.

(** A string of white space only; the empty string is one. *)
Fixpoint blank (s : string) : bool :=
  match s with
  | EmptyString => true
  | String c rest => is_space c && blank rest
  end.

End PyStr.

(** ** Data model *)

(** Exceptions that cross this layer.  [IOError] and [ValueError] stand
    for the class and its subclasses, as an [except] clause takes them. *)
Inductive exn : Type :=
| KeyError (what : string)
| IOError
| ValueError
| RuntimeError (msg : string)
| OtherError (name : string).

Inductive result (A : Type) : Type :=
| Ok (a : A)
| Raise (e : exn).
Arguments Ok {A} a.
Arguments Raise {A} e.

(** Packet types of [engineio.packet]. *)
Inductive packet_type : Type :=
| OPEN | CLOSE | PING | PONG | MESSAGE | UPGRADE | NOOP.

(** Packet payloads built by the server: the handshake dictionary of an
    OPEN packet, or the application data of a MESSAGE packet, which this
    layer carries without looking at it. *)
Inductive payload : Type :=
| OpenInfo (sid : string) (upgrades : list string)
           (pingTimeout pingInterval : Z)
| Message (data : string).

Record Packet : Type := mkPacket {
  packet_type_of : packet_type;
  data_of : payload;
  binary_of : option bool
}.

Definition header : Type := (string * string)%type.

(** The response dictionary [{'status': .., 'headers': .., 'response': ..}]. *)
Record descriptor : Type := mkDescriptor {
  status : Z;
  headers : list header;
  response : string
}.

(** Python values that reach the variable [r] of [handle_request] or come
    back from an event handler. *)
Inductive value : Type :=
| VNone
| VBool (b : bool)
| VList (packets : list Packet)
| VDict (d : descriptor)
| VObject (name : string).

(** Truth value of a Python object, as tested by [or]. *)
Definition truthy (v : value) : bool :=
  match v with
  | VNone => false
  | VBool b => b
  | VList l => match l with [] => false | _ => true end
  | VDict _ => true
  | VObject _ => true
  end.

(** [v is False] *)
Definition is_False (v : value) : bool :=
  match v with
  | VBool false => true
  | _ => false
  end.

(** [isinstance(v, dict)] *)
Definition is_dict (v : value) : bool :=
  match v with VDict _ => true | _ => false end.

(** [r or []] *)
Definition or_empty_list (v : value) : value :=
  if truthy v then v else VList [].

(** The interface of [asyncio_socket.AsyncSocket] that the server uses.
    Every method returns its outcome together with the state of the socket
    after the call. *)
Class AsyncSocket (Socket : Type) : Type := {
  new_socket : string -> Socket;
  closed : Socket -> bool;
  set_connected : Socket -> Socket;
  sock_send : Socket -> Packet -> result unit * Socket;
  sock_poll : Socket -> result (list Packet) * Socket;
  sock_handle_get_request :
    Socket -> gmap string string -> result value * Socket;
  sock_handle_post_request :
    Socket -> gmap string string -> result unit * Socket;
  sock_close : Socket -> result unit * Socket
}.

(** Calls made to the collaborators. *)
Inductive call : Type :=
| CallSend (sid : string) (pkt : Packet)
| CallPoll (sid : string)
| CallHandleGet (sid : string)
| CallHandlePost (sid : string)
| CallClose (sid : string)
| CallHandler (event : string) (sid : string).

(** Server settings that requests do not change. *)
Record Settings : Type := mkSettings {
  http_compression : bool;
  compression_threshold : Z;
  compression_methods : list string;
  cookie : option string;
  ping_timeout : Z;
  ping_interval : Z
}.

(** ** A reference socket and adapter, for running the server *)

Module Scenario.

(** How a reference socket misbehaves, if it does. *)
Inductive fault : Type :=
| Healthy
| GetRaisesIOError
| GetReturnsNone
| GetReturnsTakeover
| PostRaisesValueError
| PostCloses
| CloseRaises.

Record RefSocket : Type := mkRefSocket {
  ref_sid : string;
  ref_closed : bool;
  ref_connected : bool;
  ref_queue : list Packet;
  ref_fault : fault
}.

Definition ref_new (sid : string) : RefSocket :=
  mkRefSocket sid false false [] Healthy.

Definition ref_close_flag (s : RefSocket) : RefSocket :=
  mkRefSocket (ref_sid s) true (ref_connected s) (ref_queue s) (ref_fault s).

Definition ref_drain (s : RefSocket) : RefSocket :=
  mkRefSocket (ref_sid s) (ref_closed s) (ref_connected s) [] (ref_fault s).

#[export] Instance ref_socket_ops : AsyncSocket RefSocket := {|
  new_socket := ref_new;
  closed := ref_closed;
  set_connected s :=
    mkRefSocket (ref_sid s) (ref_closed s) true (ref_queue s) (ref_fault s);
  sock_send s pkt :=
    (Ok tt, mkRefSocket (ref_sid s) (ref_closed s) (ref_connected s)
              (ref_queue s ++ [pkt]) (ref_fault s));
  sock_poll s := (Ok (ref_queue s), ref_drain s);
  sock_handle_get_request s _ :=
    match ref_fault s with
    | GetRaisesIOError => (Raise IOError, ref_close_flag s)
    | GetReturnsNone => (Ok VNone, s)
    | GetReturnsTakeover => (Ok (VObject "WebSocketResponse"), s)
    | _ => (Ok (VList (ref_queue s)), ref_drain s)
    end;
  sock_handle_post_request s _ :=
    match ref_fault s with
    | PostRaisesValueError => (Raise ValueError, s)
    | PostCloses => (Ok tt, ref_close_flag s)
    | _ => (Ok tt, s)
    end;
  sock_close s :=
    match ref_fault s with
    | CloseRaises => (Raise (OtherError "ConnectionResetError"), s)
    | _ => (Ok tt, ref_close_flag s)
    end
|}.

(** A request as the reference adapter receives it. *)
Record RefRequest : Type := mkRefRequest {
  req_method : string;
  req_query : string;
  req_accept_encoding : option string
}.

Definition ref_translate (q : RefRequest) : gmap string string :=
  let base : gmap string string :=
    <["QUERY_STRING" := req_query q]> {["REQUEST_METHOD" := req_method q]} in
  match req_accept_encoding q with
  | Some a => <["ACCEPT_ENCODING" := a]> base
  | None => base
  end.

Definition ref_response : Type := (Z * list header * string)%type.

Definition ref_make_response (st : Z) (hs : list header) (body : string)
    : ref_response := (st, hs, body).

(** A query-string parser for [name=value&name=value] without escapes. *)
Definition ref_pair (field : string) : string * string :=
  match PyStr.split "=" field with
  | [name; v] => (name, v)
  | _ => (field, "")
  end.

Fixpoint ref_collect (fields : list string)
    : gmap string (string * list string) :=
  match fields with
  | [] => ∅
  | f :: rest =>
      let '(name, v) := ref_pair f in
      let m := ref_collect rest in
      if String.eqb v "" then m
      else match m !! name with
           | Some (x, xs) => <[name := (v, x :: xs)]> m
           | None => <[name := (v, [])]> m
           end
  end.

Definition ref_parse_qs (qs : string) : gmap string (string * list string) :=
  ref_collect (PyStr.split "&" qs).

Definition ref_encode (ps : list Packet) (b64 : bool) : string :=
  fold_right (fun p acc =>
    match packet_type_of p with
    | OPEN => "0" | CLOSE => "1" | PING => "2" | PONG => "3"
    | MESSAGE => "4" | UPGRADE => "5" | NOOP => "6"
    end +:+ acc) "" ps.

Definition ref_compress (method body : string) : string :=
  method +:+ "(" +:+ body +:+ ")".

Definition ref_cors (environ : gmap string string) : list header :=
  [("Access-Control-Allow-Credentials", "true")].

Definition ref_gen_id (n : nat) : string :=
  "sid" +:+ pretty n.

Definition ref_settings : Settings :=
  mkSettings true 0 ["gzip"; "deflate"] (Some "io") 60 25.

(** The choice of a compression method as the specification words it:
    the first of the configured methods, in the configured order, that the
    request accepts. *)
Definition first_configured_match (methods encodings : list string)
    : option string :=
  find (fun m => PyStr.mem m encodings) methods.

End Scenario.

(** ** A scripted socket, whose calls end as its fields say *)

Module Scripted.

Record ScriptedSocket : Type := mkScripted {
  scr_closed : bool;
  scr_send : result unit;
  scr_get : result value;
  scr_post : result unit
}.

#[export] Instance scripted_socket_ops : AsyncSocket ScriptedSocket := {|
  new_socket _ := mkScripted false (Ok tt) (Ok (VList [])) (Ok tt);
  closed := scr_closed;
  set_connected s := s;
  sock_send s _ := (scr_send s, s);
  sock_poll s := (Ok [], s);
  sock_handle_get_request s _ := (scr_get s, s);
  sock_handle_post_request s _ := (scr_post s, s);
  sock_close s :=
    (Ok tt, mkScripted true (scr_send s) (scr_get s) (scr_post s))
|}.

End Scripted.

(** ** The server *)

Section Server.

Context {Socket : Type} {socket_ops : AsyncSocket Socket}.
Context {App Request Response : Type}.

(** The request/response adapter, [self._async]. *)
Variable translate_request : Request -> gmap string string.
Variable make_response : Z -> list header -> string -> Response.

(** [urllib.parse.parse_qs]: each name of the query string with the list
    of its values, which is never empty and is held as its first value and
    the rest. *)
Variable parse_qs : string -> gmap string (string * list string).

(** [payload.Payload(packets=..).encode(b64)] *)
Variable encode_payload : list Packet -> bool -> string.

(** [getattr(self, '_' + encoding)]: the compression routine the server
    class defines for each method name it lists. *)
Variable compress : string -> string -> string.

(** [self._cors_headers] *)
Variable _cors_headers : gmap string string -> list header.

(** The source of session ids behind [self._generate_id]. *)
Variable gen_id : nat -> string.

Variable cfg : Settings.

(** An application event handler, a function or a coroutine function. *)
Record Handler : Type := mkHandler {
  is_coroutine : bool;
  run_handler : string -> gmap string string -> App -> result value * App
}.

(** The mutable state of the server object and of the application. *)
Record World : Type := mkWorld {
  sockets : gmap string Socket;
  handlers : gmap string Handler;
  app : App;
  warnings : list string;
  seed : nat
}.

Definition with_sockets (t : gmap string Socket) (w : World) : World :=
  mkWorld t (handlers w) (app w) (warnings w) (seed w).

Definition with_app (a : App) (w : World) : World :=
  mkWorld (sockets w) (handlers w) a (warnings w) (seed w).

(** A call to a collaborator, the session table when the call starts and
    the exception the call ended with, if any. *)
Record event : Type := mkEvent {
  ev_call : call;
  ev_table : gmap string Socket;
  ev_raised : option exn
}.

Definition raised {A} (r : result A) : option exn :=
  match r with Ok _ => None | Raise e => Some e end.

(** *** State, exceptions and the record of calls *)

Definition M (A : Type) : Type := World -> result A * World * list event.

Definition ret {A} (a : A) : M A := fun w => (Ok a, w, []).

Definition raise {A} (e : exn) : M A := fun w => (Raise e, w, []).

Definition bind {A B} (m : M A) (f : A -> M B) : M B := fun w =>
  match m w with
  | (Ok a, w1, evs1) =>
      let '(r, w2, evs2) := f a w1 in (r, w2, evs1 ++ evs2)
  | (Raise e, w1, evs1) => (Raise e, w1, evs1)
  end.

(** Runs [m] and hands its outcome, normal or exceptional, to the
    continuation: the shape of [try: .. except ..:]. *)
Definition attempt {A} (m : M A) : M (result A) := fun w =>
  let '(r, w1, evs1) := m w in (Ok r, w1, evs1).

Notation "'let!' x ':=' m 'in' k" := (bind m (fun x => k))
  (at level 10, x name, m at level 100, k at level 200).
Notation "'do!' m 'in' k" := (bind m (fun _ => k))
  (at level 10, m at level 100, k at level 200).

Definition get_sockets : M (gmap string Socket) :=
  fun w => (Ok (sockets w), w, []).

Definition put_sockets (t : gmap string Socket) : M unit :=
  fun w => (Ok tt, with_sockets t w, []).

(** [self.sockets[sid] = s] *)
Definition set_socket (sid : string) (s : Socket) : M unit :=
  fun w => (Ok tt, with_sockets (<[sid := s]> (sockets w)) w, []).

(** [del self.sockets[sid]] *)
Definition del_socket (sid : string) : M unit := fun w =>
  match sockets w !! sid with
  | Some _ => (Ok tt, with_sockets (delete sid (sockets w)) w, [])
  | None => (Raise (KeyError sid), w, [])
  end.

(** [self.logger.warning(..)] *)
Definition warning (msg : string) : M unit := fun w =>
  (Ok tt,
   mkWorld (sockets w) (handlers w) (app w) (warnings w ++ [msg]) (seed w),
   []).

(** A method call on the socket object [s] that the table holds under
    [sid]: the call is recorded, and the new state of the object is seen
    through the table entry as well as through the local variable. *)
Definition on_socket {A} (c : call) (sid : string) (s : Socket)
    (method : Socket -> result A * Socket) : M (A * Socket) := fun w =>
  let '(r, s') := method s in
  let w' := with_sockets (alter (fun _ => s') sid (sockets w)) w in
  let ev := mkEvent c (sockets w) (raised r) in
  match r with
  | Ok a => (Ok (a, s'), w', [ev])
  | Raise e => (Raise e, w', [ev])
  end.

(** [s.connected = True] on the socket object held under [sid]. *)
Definition mark_connected (sid : string) (s : Socket) : M Socket := fun w =>
  let s' := set_connected s in
  (Ok s', with_sockets (alter (fun _ => s') sid (sockets w)) w, []).

Definition get_handlers : M (gmap string Handler) :=
  fun w => (Ok (handlers w), w, []).

(** A call of the application's handler for [event]. *)
Definition call_handler (event : string) (h : Handler) (sid : string)
    (environ : gmap string string) : M value := fun w =>
  let '(r, a') := run_handler h sid environ (app w) in
  (r, with_app a' w, [mkEvent (CallHandler event sid) (sockets w) (raised r)]).

(** [query[key][0] if key in query else None] *)
Definition first_value (query : gmap string (string * list string))
    (key : string) : option string :=
  fst <$> query !! key.

(** The flag [b64] of [handle_request]. *)
Definition b64_flag (query : gmap string (string * list string)) : bool :=
  match first_value query "b64" with
  | Some x => String.eqb x "1" || String.eqb (PyStr.lower x) "true"
  | None => false
  end.

(** *** Helpers inherited from [server.Server] *)

(** Modelled from the spec: [server.Server._get_socket] is not part of the
    source at hand.  Section 4.5 gives [get(sid) -> SessionSocket |
    NotFound]; absence is the [KeyError] that [send] intercepts. *)
Definition _get_socket (sid : string) : M Socket := fun w =>
  match sockets w !! sid with
  | Some s => (Ok s, w, [])
  | None => (Raise (KeyError "Session not found"), w, [])
  end.

(** Modelled from the spec: [server.Server._generate_id] is not part of
    the source at hand.  Section 4.2 has it generate a fresh session id;
    the ids come from the supply [gen_id]. *)
Definition _generate_id : M string := fun w =>
  (Ok (gen_id (seed w)),
   mkWorld (sockets w) (handlers w) (app w) (warnings w) (S (seed w)),
   []).

(** Modelled from the spec: [server.Server._upgrades] is not part of the
    source at hand.  Section 4.2: a session that started on polling
    advertises the persistent-socket transport, one that started on the
    persistent-socket transport advertises none. *)
Definition _upgrades (sid transport : string) : list string :=
  if String.eqb transport "websocket" then [] else ["websocket"].

(** Modelled from the spec: [server.Server._bad_request] is not part of
    the source at hand.  Sections 6 and 7: BadRequest is status 400. *)
Definition _bad_request : descriptor := mkDescriptor 400 [] "".

(** Modelled from the spec: [server.Server._unauthorized] is not part of
    the source at hand.  Sections 6 and 7: Unauthorized is status 401. *)
Definition _unauthorized : descriptor := mkDescriptor 401 [] "".

(** Modelled from the spec: [server.Server._method_not_found] is not part
    of the source at hand.  Section 4.1: MethodNotAllowed is status 405. *)
Definition _method_not_found : descriptor := mkDescriptor 405 [] "".

(** Modelled from the spec: [server.Server._ok] is not part of the source
    at hand.  Section 4.1: a list of packets is wrapped into a 200 response
    body, and without packets the result is an empty 200 acknowledgment;
    section 4.2: the caller's headers are attached. *)
Definition _ok (packets : option (list Packet))
    (hdrs : option (list header)) (b64 : bool) : descriptor :=
  match packets with
  | Some ps => mkDescriptor 200 (default [] hdrs) (encode_payload ps b64)
  | None => mkDescriptor 200 (default [] hdrs) ""
  end.

(** *** [AsyncServer] *)

Definition is_asyncio_based : bool := true.

Definition async_modes : list string := ["aiohttp"].

(** [AsyncServer.send] *)
Definition send (sid : string) (data : string) (binary : option bool)
    : M unit :=
  let! found := attempt (_get_socket sid) in
  match found with
  | Raise (KeyError _) =>
      (* the socket is not available *)
      warning ("Cannot send to sid " +:+ sid)
  | Raise e => raise e
  | Ok socket =>
      do! on_socket (CallSend sid (mkPacket MESSAGE (Message data) binary))
            sid socket
            (fun s => sock_send s (mkPacket MESSAGE (Message data) binary)) in
      ret tt
  end.

(** The loop [for client in six.itervalues(self.sockets): client.close()],
    over the entries of the table. *)
Fixpoint close_clients (clients : list (string * Socket)) : M unit :=
  match clients with
  | [] => ret tt
  | (k, client) :: rest =>
      do! on_socket (CallClose k) k client sock_close in
      close_clients rest
  end.

(** [AsyncServer.disconnect] *)
Definition disconnect (sid : option string) : M unit :=
  match sid with
  | Some sid =>
      let! socket := _get_socket sid in
      do! on_socket (CallClose sid) sid socket sock_close in
      del_socket sid
  | None =>
      let! table := get_sockets in
      do! close_clients (map_to_list table) in
      put_sockets ∅
  end.

(** [AsyncServer._trigger_event], called with the arguments [sid] and
    [environ] of the connect event.  Neither branch has a [return]: the
    handler's value is dropped and the function yields [None]. *)
Definition _trigger_event (event : string) (sid : string)
    (environ : gmap string string) : M value :=
  let! registered := get_handlers in
  match registered !! event with
  | Some h =>
      if is_coroutine h
      then do! call_handler event h sid environ in ret VNone
      else do! call_handler event h sid environ in ret VNone
  | None => ret VNone
  end.

(** The OPEN packet of the handshake. *)
Definition open_packet (sid transport : string) : Packet :=
  mkPacket OPEN
    (OpenInfo sid (_upgrades sid transport)
       (ping_timeout cfg * 1000) (ping_interval cfg * 1000))
    None.

(** [headers = None; if self.cookie: headers = [('Set-Cookie', ..)]] *)
Definition cookie_headers (sid : string) : option (list header) :=
  match cookie cfg with
  | Some c =>
      if String.eqb c "" then None
      else Some [("Set-Cookie", c +:+ "=" +:+ sid)]
  | None => None
  end.

(** [AsyncServer._handle_connect] *)
Definition _handle_connect (environ : gmap string string)
    (transport : string) (b64 : bool) : M value :=
  let! sid := _generate_id in
  let s := new_socket sid in
  do! set_socket sid s in
  let pkt := open_packet sid transport in
  let! sent := on_socket (CallSend sid pkt) sid s
                 (fun s => sock_send s pkt) in
  let s := snd sent in
  let! verdict := _trigger_event "connect" sid environ in
  if is_False verdict then
    do! warning "Application rejected connection" in
    do! del_socket sid in
    ret (VDict _unauthorized)
  else if String.eqb transport "websocket" then
    let! got := on_socket (CallHandleGet sid) sid s
                  (fun s => sock_handle_get_request s environ) in
    ret (fst got)
  else
    let! s := mark_connected sid s in
    let hdrs := cookie_headers sid in
    let! polled := on_socket (CallPoll sid) sid s sock_poll in
    ret (VDict (_ok (Some (fst polled)) hdrs b64)).

(** What [handle_request] returns: the dispatcher's own value, or the
    adapter's native response. *)
Inductive reply : Type :=
| PassThrough (v : value)
| Native (resp : Response).

(** [environ[key]] *)
Definition getitem (environ : gmap string string) (key : string)
    : M string :=
  match environ !! key with
  | Some v => ret v
  | None => raise (KeyError key)
  end.

(** Lines 64 to 115 of [handle_request]: the value of [r]. *)
Definition route (environ : gmap string string) : M value :=
  let! method := getitem environ "REQUEST_METHOD" in
  let query := parse_qs (default "" (environ !! "QUERY_STRING")) in
  match query !! "j" with
  | Some _ =>
      do! warning "JSONP requests are not supported" in
      ret (VDict _bad_request)
  | None =>
      let sid := first_value query "sid" in
      let b64 := b64_flag query in
      if String.eqb method "GET" then
        match sid with
        | None =>
            let transport :=
              default "polling" (first_value query "transport") in
            if negb (String.eqb transport "polling")
               && negb (String.eqb transport "websocket")
            then
              do! warning ("Invalid transport " +:+ transport) in
              ret (VDict _bad_request)
            else _handle_connect environ transport b64
        | Some sid =>
            let! table := get_sockets in
            match table !! sid with
            | None =>
                do! warning ("Invalid session " +:+ sid) in
                ret (VDict _bad_request)
            | Some _ =>
                let! socket := _get_socket sid in
                let! outcome :=
                  attempt
                    (let! got := on_socket (CallHandleGet sid) sid socket
                                   (fun s => sock_handle_get_request s environ)
                     in
                     match fst got with
                     | VList packets =>
                         ret (VDict (_ok (Some packets) None b64))
                     | packets => ret packets
                     end) in
                let! r :=
                  match outcome with
                  | Ok r => ret r
                  | Raise IOError =>
                      let! table := get_sockets in
                      do! match table !! sid with
                          | Some _ => del_socket sid
                          | None => ret tt
                          end in
                      ret (VDict _bad_request)
                  | Raise e => raise e
                  end in
                let! table := get_sockets in
                do! match table !! sid with
                    | Some s => if closed s then del_socket sid else ret tt
                    | None => ret tt
                    end in
                ret r
            end
        end
      else if String.eqb method "POST" then
        let! table := get_sockets in
        match sid with
        | None =>
            do! warning "Invalid session None" in
            ret (VDict _bad_request)
        | Some sid =>
            match table !! sid with
            | None =>
                do! warning ("Invalid session " +:+ sid) in
                ret (VDict _bad_request)
            | Some _ =>
                let! socket := _get_socket sid in
                let! outcome :=
                  attempt
                    (do! on_socket (CallHandlePost sid) sid socket
                           (fun s => sock_handle_post_request s environ) in
                     ret (VDict (_ok None None false))) in
                match outcome with
                | Ok r => ret r
                | Raise ValueError => ret (VDict _bad_request)
                | Raise e => raise e
                end
            end
        end
      else
        do! warning ("Method " +:+ method +:+ " not supported") in
        ret (VDict _method_not_found)
  end.

(** The list comprehension over the [ACCEPT_ENCODING] entry. *)
Definition accepted_encodings (environ : gmap string string)
    : list string :=
  map (fun e => PyStr.strip (default "" (PyStr.first (PyStr.split ";" e))))
      (PyStr.split "," (default "" (environ !! "ACCEPT_ENCODING"))).

(** The loop [for encoding in encodings: ..], which stops at the first
    encoding that is in [self.compression_methods]. *)
Fixpoint negotiate (encodings : list string) (r : descriptor)
    : descriptor :=
  match encodings with
  | [] => r
  | encoding :: rest =>
      if PyStr.mem encoding (compression_methods cfg)
      then mkDescriptor (status r)
             (headers r ++ [("Content-Encoding", encoding)])
             (compress encoding (response r))
      else negotiate rest r
  end.

(** Lines 118 to 127 of [handle_request]. *)
Definition compress_response (environ : gmap string string)
    (r : descriptor) : descriptor :=
  if http_compression cfg
     && (compression_threshold cfg <=? Z.of_nat (String.length (response r)))
  then negotiate (accepted_encodings environ) r
  else r.

(** The status, headers and body handed to [make_response]. *)
Definition assemble (environ : gmap string string) (r : descriptor)
    : descriptor :=
  let r := compress_response environ r in
  let cors_headers := _cors_headers environ in
  mkDescriptor (status r) (headers r ++ cors_headers) (response r).

(** Lines 116 to 131 of [handle_request]. *)
Definition finalize (environ : gmap string string) (r : value) : reply :=
  match r with
  | VDict d =>
      let a := assemble environ d in
      Native (make_response (status a) (headers a) (response a))
  | _ => PassThrough (or_empty_list r)
  end.

(** [AsyncServer.handle_request] *)
Definition handle_request (request : Request) : M reply :=
  let environ := translate_request request in
  let! r := route environ in
  ret (finalize environ r).

(** [AsyncServer.start_background_task] and [AsyncServer.sleep] *)
Definition start_background_task {A} : M A :=
  raise (RuntimeError "Not implemented, use asyncio.").

Definition sleep {A} : M A :=
  raise (RuntimeError "Not implemented, use asyncio.").

(** ** Properties *)

Local Arguments finalize : simpl never.
Local Arguments _handle_connect : simpl never.
Local Arguments _trigger_event : simpl never.

(** *** The response assembler *)

Lemma negotiate_status (encodings : list string) (r : descriptor) :
  status (negotiate encodings r) = status r.
Proof.
  induction encodings as [|e rest IH]; simpl; [reflexivity|].
  destruct (PyStr.mem e (compression_methods cfg)); [reflexivity|exact IH].
Qed.

Lemma assemble_status (environ : gmap string string) (r : descriptor) :
  status (assemble environ r) = status r.
Proof.
  unfold assemble, compress_response; simpl.
  destruct (_ && _); [apply negotiate_status|reflexivity].
Qed.

Lemma finalize_descriptor (environ : gmap string string) (d : descriptor) :
  exists hs body,
    finalize environ (VDict d) = Native (make_response (status d) hs body).
Proof.
  exists (headers (assemble environ d)), (response (assemble environ d)).
  unfold finalize. cbv zeta. rewrite assemble_status. reflexivity.
Qed.

(** [handle_request] is the dispatcher followed by the assembler. *)
Lemma handle_request_route (request : Request) (w : World) :
  handle_request request w
  = let '(r, w', evs) := route (translate_request request) w in
    (match r with
     | Ok v => Ok (finalize (translate_request request) v)
     | Raise e => Raise e
     end, w', evs).
Proof.
  unfold handle_request, bind, ret.
  destruct (route (translate_request request) w) as [[[v|e] w'] evs];
    [rewrite app_nil_r|]; reflexivity.
Qed.

(** Unfolds the monadic plumbing of a run. *)
Ltac run_step :=
  unfold bind, ret, raise, attempt, warning, get_sockets, put_sockets,
    set_socket, get_handlers, getitem; cbn beta iota zeta.

Tactic Notation "run_step" "in" hyp(H) :=
  unfold bind, ret, raise, attempt, warning, get_sockets, put_sockets,
    set_socket, get_handlers, getitem in H; cbn beta iota zeta in H.

(** *** Sending *)

(** C10.  A [send] to a session id that is not in the table returns
    normally, makes no call to any socket, and leaves the table as it was;
    the only trace is the warning in the log. *)
Theorem send_unknown_sid (w : World) (sid data : string)
    (binary : option bool) :
  sockets w !! sid = None ->
  exists w',
    send sid data binary w = (Ok tt, w', []) /\
    sockets w' = sockets w /\
    handlers w' = handlers w /\
    app w' = app w /\
    warnings w' = warnings w ++ ["Cannot send to sid " +:+ sid].
Proof.
  intros Habsent. unfold send, _get_socket. run_step.
  rewrite Habsent. cbn.
  eexists. split; [reflexivity|]. repeat split.
Qed.

(** *** Requests for a session that is not there *)

(** C8.  A GET request that carries a session id which is not a key of the
    table gets a 400 response; no socket or handler is called and the table
    is exactly what it was. *)
Theorem get_unknown_sid (request : Request) (w : World) (sid : string)
    (rest : list string) :
  let environ := translate_request request in
  environ !! "REQUEST_METHOD" = Some "GET" ->
  parse_qs (default "" (environ !! "QUERY_STRING")) !! "sid"
    = Some (sid, rest) ->
  sockets w !! sid = None ->
  exists w' hs body,
    handle_request request w
      = (Ok (Native (make_response 400 hs body)), w', []) /\
    sockets w' = sockets w.
Proof.
  intros environ Hmethod Hsid Habsent.
  destruct (finalize_descriptor environ _bad_request) as (hs & body & Hfin).
  rewrite handle_request_route. fold environ.
  unfold route. run_step. rewrite Hmethod. cbn beta iota.
  destruct (parse_qs _ !! "j") as [j|] eqn:Hj.
  - cbn. rewrite Hfin. eexists _, hs, body. split; reflexivity.
  - unfold first_value. rewrite Hsid. cbn. rewrite Habsent. cbn.
    rewrite Hfin. eexists _, hs, body. split; reflexivity.
Qed.

(** *** Handshake requests *)

(** C9, as the code has it.  On a GET request without session id, a
    transport value other than polling and websocket gets a 400 response,
    no call is made and the table is what it was.  Without a transport
    value, and without the JSONP marker, the request is handled as the
    handshake for polling. *)
Theorem get_without_sid_transport (request : Request) (w : World) :
  let environ := translate_request request in
  let query := parse_qs (default "" (environ !! "QUERY_STRING")) in
  environ !! "REQUEST_METHOD" = Some "GET" ->
  query !! "sid" = None ->
  (forall t rest,
      query !! "transport" = Some (t, rest) ->
      t <> "polling" -> t <> "websocket" ->
      exists w' hs body,
        handle_request request w
          = (Ok (Native (make_response 400 hs body)), w', []) /\
        sockets w' = sockets w /\
        size (sockets w') = size (sockets w)) /\
  (query !! "transport" = None ->
   query !! "j" = None ->
   handle_request request w
     = (let! r := _handle_connect environ "polling" (b64_flag query) in
        ret (finalize environ r)) w).
Proof.
  intros environ query Hmethod Hsid.
  destruct (finalize_descriptor environ _bad_request) as (hs & body & Hfin).
  split.
  - intros t rest Ht Hpolling Hwebsocket.
    rewrite handle_request_route. fold environ.
    unfold route. run_step. rewrite Hmethod. cbn beta iota.
    fold query. destruct (query !! "j") as [j|] eqn:Hj.
    + cbn. rewrite Hfin. eexists _, hs, body. repeat split.
    + unfold first_value. rewrite Hsid, Ht. cbn.
      apply String.eqb_neq in Hpolling, Hwebsocket.
      rewrite Hpolling, Hwebsocket. cbn.
      rewrite Hfin. eexists _, hs, body. repeat split.
  - intros Ht Hj.
    assert (route environ w
            = _handle_connect environ "polling" (b64_flag query) w)
      as Hroute.
    { unfold route. run_step. rewrite Hmethod. cbn beta iota.
      fold query. rewrite Hj. unfold first_value. rewrite Hsid, Ht.
      cbn. destruct (_handle_connect _ _ _ w) as [[r w'] evs].
      reflexivity. }
    unfold handle_request. fold environ. unfold bind.
    rewrite Hroute. reflexivity.
Qed.

(** *** Results that are not descriptors *)

(** C7, as the code has it.  A result of the dispatcher that is not a
    dictionary is returned as it is when it is true, and as the empty list
    when it is false; neither compression nor CORS headers nor the adapter
    come into play. *)
Theorem non_descriptor_passes_through (request : Request) (w w' : World)
    (r : value) (evs : list event) :
  route (translate_request request) w = (Ok r, w', evs) ->
  is_dict r = false ->
  handle_request request w
    = (Ok (PassThrough (if truthy r then r else VList [])), w', evs).
Proof.
  intros Hroute Hdict. rewrite handle_request_route, Hroute.
  destruct r; try discriminate; reflexivity.
Qed.

(** *** Requests on a live session *)

Lemma on_socket_run {A} (c : call) (sid : string) (s : Socket)
    (method : Socket -> result A * Socket) (w : World) :
  on_socket c sid s method w
  = (match fst (method s) with
     | Ok a => Ok (a, snd (method s))
     | Raise e => Raise e
     end,
     with_sockets (alter (fun _ => snd (method s)) sid (sockets w)) w,
     [mkEvent c (sockets w) (raised (fst (method s)))]).
Proof.
  unfold on_socket. destruct (method s) as [[a|e] s']; reflexivity.
Qed.

Lemma alter_present (m : gmap string Socket) (sid : string)
    (s s' : Socket) :
  m !! sid = Some s -> alter (fun _ => s') sid m = <[sid := s']> m.
Proof.
  intros Hs. apply map_eq; intros k.
  destruct (decide (sid = k)) as [<-|Hne].
  - rewrite lookup_alter_eq, lookup_insert_eq, Hs. reflexivity.
  - rewrite lookup_alter_ne, lookup_insert_ne by assumption. reflexivity.
Qed.



(** The other side of the asymmetry: after a GET whose get-handler
    returns, a session that reports itself closed is removed. *)
Lemma get_closed_session_removed (request : Request) (w : World)
    (sid : string) (rest : list string) (s s' : Socket) (v : value) :
  let environ := translate_request request in
  let query := parse_qs (default "" (environ !! "QUERY_STRING")) in
  environ !! "REQUEST_METHOD" = Some "GET" ->
  query !! "j" = None ->
  query !! "sid" = Some (sid, rest) ->
  sockets w !! sid = Some s ->
  sock_handle_get_request s environ = (Ok v, s') ->
  closed s' = true ->
  sockets (snd (fst (handle_request request w))) = delete sid (sockets w).
Proof.
  intros environ query Hmethod Hj Hsid Hs Hget Hclosed.
  rewrite handle_request_route. fold environ.
  unfold route. run_step. rewrite Hmethod. cbn beta iota.
  fold query. rewrite Hj. unfold first_value. rewrite Hsid. cbn.
  rewrite Hs. unfold _get_socket. rewrite Hs.
  rewrite on_socket_run, Hget. unfold del_socket.
  destruct v; cbn; rewrite lookup_alter_eq, Hs; cbn; rewrite Hclosed; cbn;
    rewrite lookup_alter_eq, Hs; cbn; apply delete_alter_eq.
Qed.

(** *** The handshake *)

(** What a run of [_trigger_event] amounts to: the handler, when there is
    one, is called, and its value does not reach the caller. *)
Lemma trigger_event_run (name sid : string) (environ : gmap string string)
    (w : World) :
  _trigger_event name sid environ w
  = match handlers w !! name with
    | Some h =>
        let '(r, a') := run_handler h sid environ (app w) in
        (match r with Ok _ => Ok VNone | Raise e => Raise e end,
         with_app a' w,
         [mkEvent (CallHandler name sid) (sockets w) (raised r)])
    | None => (Ok VNone, w, [])
    end.
Proof.
  unfold _trigger_event, call_handler. run_step.
  destruct (handlers w !! name) as [h|]; [|reflexivity].
  destruct (is_coroutine h); cbn;
    destruct (run_handler h sid environ (app w)) as [[v0|e] a'];
    reflexivity.
Qed.

Lemma trigger_event_yields_None (name sid : string)
    (environ : gmap string string) (w w' : World) (v : value)
    (evs : list event) :
  _trigger_event name sid environ w = (Ok v, w', evs) -> v = VNone.
Proof.
  rewrite trigger_event_run. intros Hrun.
  destruct (handlers w !! name) as [h|]; [|congruence].
  destruct (run_handler h sid environ (app w)) as [[v0|e] a'];
    congruence.
Qed.

Ltac table_lookup :=
  cbn; rewrite ?lookup_alter_eq, ?lookup_insert_eq; cbn; eauto.

(** The calls of a handshake, in order, each with the table it starts
    from. *)
Lemma handshake_calls (environ : gmap string string)
    (transport : string) (b64 : bool) (w : World) :
  let sid := gen_id (seed w) in
  let pkt := open_packet sid transport in
  let evs := snd (_handle_connect environ transport b64 w) in
  exists sent rest,
    evs = sent :: rest /\
    ev_call sent = CallSend sid pkt /\
    ev_table sent = <[sid := new_socket sid]> (sockets w) /\
    Forall (fun ev => is_Some (ev_table ev !! sid)) evs /\
    (forall ev, In ev evs -> ev_call ev = CallHandler "connect" sid ->
                In ev rest) /\
    (forall h, fst (sock_send (new_socket sid) pkt) = Ok tt ->
               handlers w !! "connect" = Some h ->
               exists called rest',
                 rest = called :: rest' /\
                 ev_call called = CallHandler "connect" sid).
Proof.
  intros sid pkt evs. subst evs.
  destruct (_handle_connect environ transport b64 w) as [[res w'] evs]
    eqn:Hrun.
  cbn [snd].
  unfold _handle_connect, _generate_id, mark_connected, del_socket in Hrun.
  run_step in Hrun. fold sid in Hrun. fold pkt in Hrun.
  rewrite on_socket_run in Hrun.
  destruct (sock_send (new_socket sid) pkt) as [[[]|e] s1] eqn:Hsend;
    cbn in Hrun.
  2:{ simplify_eq. eexists _, []. repeat split; try reflexivity.
      - repeat constructor. table_lookup.
      - intros ev [<-|[]]; discriminate.
      - discriminate. }
  rewrite trigger_event_run in Hrun. cbn in Hrun.
  assert (forall tail : list event,
    Forall (fun ev => is_Some (ev_table ev !! sid)) tail ->
    (handlers w !! "connect" = None \/
     exists called rest', tail = called :: rest' /\
       ev_call called = CallHandler "connect" sid) ->
    evs = mkEvent (CallSend sid pkt) (<[sid := new_socket sid]> (sockets w))
            None :: tail ->
    exists sent rest,
      evs = sent :: rest /\
      ev_call sent = CallSend sid pkt /\
      ev_table sent = <[sid := new_socket sid]> (sockets w) /\
      Forall (fun ev => is_Some (ev_table ev !! sid)) evs /\
      (forall ev, In ev evs -> ev_call ev = CallHandler "connect" sid ->
                  In ev rest) /\
      (forall h, Ok tt = Ok tt ->
                 handlers w !! "connect" = Some h ->
                 exists called rest',
                   rest = called :: rest' /\
                   ev_call called = CallHandler "connect" sid)) as Hshape.
  { intros tail Htail Hcalled ->. eexists _, tail.
    repeat split; try reflexivity.
    - constructor; [table_lookup|exact Htail].
    - intros ev [<-|Hin] Hcall; [discriminate Hcall|exact Hin].
    - intros h _ Hh. destruct Hcalled as [Hnone|Hcalled];
        [congruence|exact Hcalled]. }
  destruct (handlers w !! "connect") as [h|] eqn:Hh.
  - destruct (run_handler h sid environ (app w)) as [[v|e] a'] eqn:Hcall;
      cbn in Hrun.
    + destruct (String.eqb transport "websocket");
        rewrite on_socket_run in Hrun;
        [destruct (sock_handle_get_request s1 environ) as [[v'|e'] s2]
        |destruct (sock_poll (set_connected s1)) as [[ps|e'] s2]];
        cbn in Hrun; simplify_eq;
        (refine (Hshape _ _ _ eq_refl);
         [|right; eexists _, _; split; reflexivity]);
        repeat constructor; table_lookup.
    + simplify_eq.
      refine (Hshape _ _ _ eq_refl);
        [|right; eexists _, _; split; reflexivity].
      repeat constructor; table_lookup.
  - cbn in Hrun.
    destruct (String.eqb transport "websocket");
      rewrite on_socket_run in Hrun;
      [destruct (sock_handle_get_request s1 environ) as [[v'|e'] s2]
      |destruct (sock_poll (set_connected s1)) as [[ps|e'] s2]];
      cbn in Hrun; simplify_eq;
      (refine (Hshape _ _ _ eq_refl); [|left; reflexivity]);
      repeat constructor; table_lookup.
Qed.

(** C4.  The handshake puts the new socket in the table under the fresh
    session id before it calls anything.  Its first call is the sending of
    the OPEN packet on that socket, and starts from the old table with the
    new entry; the connect handler, when one is registered and the send
    has returned, is the second call and starts from that table with the
    socket as the send left it.  At every call [_get_socket] on the new id
    succeeds, so the session can be found before the connect event has
    resolved.  The effects are those of the calls: the table the handshake
    leaves is the old one with the new session, in the state the send left
    it in when the send or the handler raised, the application state is
    the one the handler left, and one session id has been drawn. *)
Theorem handshake_entry_visible (environ : gmap string string)
    (transport : string) (b64 : bool) (w : World) :
  let sid := gen_id (seed w) in
  let pkt := open_packet sid transport in
  let sending := sock_send (new_socket sid) pkt in
  let res := fst (fst (_handle_connect environ transport b64 w)) in
  let w' := snd (fst (_handle_connect environ transport b64 w)) in
  let evs := snd (_handle_connect environ transport b64 w) in
  (exists s, sockets w' = <[sid := s]> (sockets w)) /\
  seed w' = S (seed w) /\
  exists sent rest,
    evs = sent :: rest /\
    sent = mkEvent (CallSend sid pkt) (<[sid := new_socket sid]> (sockets w))
             (raised (fst sending)) /\
    Forall (fun ev =>
              exists s,
                ev_table ev !! sid = Some s /\
                fst (fst (_get_socket sid (with_sockets (ev_table ev) w)))
                  = Ok s) evs /\
    (forall ev, In ev evs -> ev_call ev = CallHandler "connect" sid ->
                In ev rest) /\
    (forall e, fst sending = Raise e ->
               res = Raise e /\ rest = [] /\
               sockets w' = <[sid := snd sending]> (sockets w) /\
               app w' = app w) /\
    (fst sending = Ok tt -> handlers w !! "connect" = None ->
     app w' = app w) /\
    (forall h, fst sending = Ok tt ->
               handlers w !! "connect" = Some h ->
               exists rest',
                 rest = mkEvent (CallHandler "connect" sid)
                          (<[sid := snd sending]> (sockets w))
                          (raised (fst (run_handler h sid environ (app w))))
                        :: rest' /\
                 app w' = snd (run_handler h sid environ (app w)) /\
                 forall e,
                   fst (run_handler h sid environ (app w)) = Raise e ->
                   res = Raise e /\ rest' = [] /\
                   sockets w' = <[sid := snd sending]> (sockets w)).
Proof.
  intros sid pkt sending res w' evs.
  destruct (handshake_calls environ transport b64 w)
    as (sent0 & rest0 & Hevs0 & _ & _ & Hvisible & Hafter & _).
  fold sid evs in Hevs0, Hvisible, Hafter.
  assert (Forall (fun ev =>
            exists s,
              ev_table ev !! sid = Some s /\
              fst (fst (_get_socket sid (with_sockets (ev_table ev) w)))
                = Ok s) evs) as Hlookup.
  { eapply Forall_impl; [exact Hvisible|].
    intros ev [s Hs]. exists s. split; [exact Hs|].
    unfold _get_socket. cbn. rewrite Hs. reflexivity. }
  clear Hvisible.
  subst res w' evs sending.
  destruct (_handle_connect environ transport b64 w) as [[res w'] evs]
    eqn:Hrun.
  cbn [fst snd] in *.
  unfold _handle_connect, _generate_id, mark_connected, del_socket in Hrun.
  run_step in Hrun. fold sid in Hrun. fold pkt in Hrun.
  rewrite on_socket_run in Hrun.
  destruct (sock_send (new_socket sid) pkt) as [[[]|e] s1] eqn:Hsend;
    cbn in Hrun; cbn [fst snd].
  2:{ simplify_eq. cbn.
      split; [eexists; apply alter_insert_eq|]. split; [reflexivity|].
      eexists _, []. split; [reflexivity|]. split; [reflexivity|].
      split; [exact Hlookup|]. split; [exact Hafter|].
      split; [|split; discriminate].
      intros e0 [= <-]. repeat split. apply alter_insert_eq. }
  rewrite trigger_event_run in Hrun. cbn in Hrun.
  destruct (handlers w !! "connect") as [h|] eqn:Hh.
  - destruct (run_handler h sid environ (app w)) as [[v|e] a'] eqn:Hcall;
      cbn in Hrun.
    + destruct (String.eqb transport "websocket");
        rewrite on_socket_run in Hrun;
        [destruct (sock_handle_get_request s1 environ) as [[v'|e'] s2]
        |destruct (sock_poll (set_connected s1)) as [[ps|e'] s2]];
        cbn in Hrun; simplify_eq; cbn;
        (split; [eexists; rewrite !alter_insert_eq; reflexivity|]);
        (split; [reflexivity|]);
        eexists _, _; (split; [reflexivity|]); (split; [reflexivity|]);
        (split; [exact Hlookup|]); (split; [exact Hafter|]);
        (split; [discriminate|]); (split; [discriminate|]);
        intros h0 _ [= <-]; rewrite Hcall; cbn;
        eexists; (split; [rewrite alter_insert_eq; reflexivity|]);
        (split; [reflexivity|discriminate]).
    + simplify_eq. cbn.
      split; [eexists; rewrite !alter_insert_eq; reflexivity|].
      split; [reflexivity|].
      eexists _, _. split; [reflexivity|]. split; [reflexivity|].
      split; [exact Hlookup|]. split; [exact Hafter|].
      split; [discriminate|]. split; [discriminate|].
      intros h0 _ [= <-]. rewrite Hcall. cbn.
      eexists. split; [rewrite alter_insert_eq; reflexivity|].
      split; [reflexivity|].
      intros e0 [= <-]. repeat split. apply alter_insert_eq.
  - cbn in Hrun.
    destruct (String.eqb transport "websocket");
      rewrite on_socket_run in Hrun;
      [destruct (sock_handle_get_request s1 environ) as [[v'|e'] s2]
      |destruct (sock_poll (set_connected s1)) as [[ps|e'] s2]];
      cbn in Hrun; simplify_eq; cbn;
      (split; [eexists; rewrite !alter_insert_eq; reflexivity|]);
      (split; [reflexivity|]);
      eexists _, _; (split; [reflexivity|]); (split; [reflexivity|]);
      (split; [exact Hlookup|]); (split; [exact Hafter|]);
      (split; [discriminate|]); (split; [reflexivity|]);
      discriminate.
Qed.

(** C1 fails on the code.  With a connect handler that returns [False],
    a handshake for polling whose send and poll succeed is answered with
    the 200 descriptor of the first poll and leaves the new session in the
    table: [_trigger_event] has dropped the handler's value, so the test
    [is False] in [_handle_connect] sees [None]. *)
Theorem rejection_not_honoured (environ : gmap string string) (b64 : bool)
    (w : World) (h : Handler) (s1 s2 : Socket) (a' : App)
    (packets : list Packet) :
  let sid := gen_id (seed w) in
  let pkt := open_packet sid "polling" in
  handlers w !! "connect" = Some h ->
  sock_send (new_socket sid) pkt = (Ok tt, s1) ->
  run_handler h sid environ (app w) = (Ok (VBool false), a') ->
  sock_poll (set_connected s1) = (Ok packets, s2) ->
  exists w' evs,
    _handle_connect environ "polling" b64 w
      = (Ok (VDict (_ok (Some packets) (cookie_headers sid) b64)), w', evs) /\
    status (_ok (Some packets) (cookie_headers sid) b64) = 200 /\
    sockets w' !! sid = Some s2.
Proof.
  intros sid pkt Hh Hsend Hcall Hpoll.
  unfold _handle_connect, _generate_id, mark_connected.
  run_step. fold sid. fold pkt.
  rewrite on_socket_run, Hsend. cbn.
  rewrite trigger_event_run. cbn. rewrite Hh, Hcall. cbn.
  rewrite on_socket_run, Hpoll. cbn.
  eexists _, _. split; [reflexivity|]. split; [reflexivity|].
  cbn. rewrite !lookup_alter_eq, lookup_insert_eq. reflexivity.
Qed.

(** *** Disconnecting *)

Lemma close_clients_run (clients : list (string * Socket)) (w : World) :
  let '(res, w', evs) := close_clients clients w in
  dom (sockets w') = dom (sockets w) /\
  ((forall k s, In (k, s) clients -> fst (sock_close s) = Ok tt) ->
   res = Ok tt /\
   forall k s, In (k, s) clients ->
               exists t, In (mkEvent (CallClose k) t None) evs) /\
  (forall k s e, In (k, s) clients -> fst (sock_close s) = Raise e ->
                 exists e', res = Raise e').
Proof.
  revert w. induction clients as [|[k0 s0] rest IH]; intros w.
  - cbn. split; [reflexivity|]. split.
    + intros _. split; [reflexivity|]. intros k s [].
    + intros k s e [].
  - cbn [close_clients]. unfold bind. rewrite on_socket_run.
    destruct (sock_close s0) as [[[]|e0] s0'] eqn:Hclose; cbn.
    + specialize (IH (with_sockets (alter (fun _ => s0') k0 (sockets w)) w)).
      destruct (close_clients rest _) as [[res w'] evs].
      destruct IH as (Hdom & Hok & Hfail). split; [|split].
      * rewrite Hdom. cbn. apply dom_alter_L.
      * intros Hall. destruct Hok as [-> Hclosed].
        { intros k s Hin. apply (Hall k s). right. exact Hin. }
        split; [reflexivity|].
        intros k s [Heq|Hin].
        -- injection Heq as <- <-. eexists. left. reflexivity.
        -- destruct (Hclosed k s Hin) as [t Ht]. exists t. right. exact Ht.
      * intros k s e [Heq|Hin] Hraise.
        -- injection Heq as <- <-. rewrite Hclose in Hraise. discriminate.
        -- exact (Hfail k s e Hin Hraise).
    + split; [|split].
      * apply dom_alter_L.
      * intros Hall. specialize (Hall k0 s0 (or_introl eq_refl)).
        rewrite Hclose in Hall. discriminate.
      * intros. eauto.
Qed.

(** C3, as the code has it.  [disconnect] without a session id reaches
    every entry of the table, [disconnect] with a session id of the table
    reaches that entry.  When the [close] of every entry it reaches
    succeeds, those entries are closed and removed, which empties the table
    in the first case and leaves every other entry untouched in the second.
    When a [close] raises, the call ends with an exception and no entry
    leaves the table. *)
Theorem disconnect_closes_and_removes (w w' : World)
    (target : option string) (res : result unit) (evs : list event) :
  let reached k := target = None \/ target = Some k in
  (forall sid, target = Some sid -> is_Some (sockets w !! sid)) ->
  disconnect target w = (res, w', evs) ->
  ((forall k s, sockets w !! k = Some s -> reached k ->
                fst (sock_close s) = Ok tt) ->
   res = Ok tt /\
   sockets w' = match target with
                | Some sid => delete sid (sockets w)
                | None => ∅
                end /\
   (forall k, is_Some (sockets w !! k) -> reached k ->
              exists t, In (mkEvent (CallClose k) t None) evs)) /\
  (forall k s e, sockets w !! k = Some s -> reached k ->
                 fst (sock_close s) = Raise e ->
                 (exists e', res = Raise e') /\
                 dom (sockets w') = dom (sockets w)).
Proof.
  intros reached Hpresent Hrun. destruct target as [sid|].
  - destruct (Hpresent sid eq_refl) as [s Hs].
    unfold disconnect, _get_socket, del_socket in Hrun. run_step in Hrun.
    rewrite Hs, on_socket_run in Hrun.
    destruct (sock_close s) as [[[]|e] s'] eqn:Hclose; cbn in Hrun.
    + rewrite lookup_alter_eq, Hs in Hrun. cbn in Hrun. simplify_eq.
      split.
      * intros _. split; [reflexivity|]. split; [apply delete_alter_eq|].
        intros k _ [Hk|Hk]; [discriminate|]. injection Hk as <-.
        eexists. left. reflexivity.
      * intros k s0 e Hk [Hr|Hr] Hraise; [discriminate|].
        injection Hr as <-. rewrite Hs in Hk. injection Hk as <-.
        rewrite Hclose in Hraise. discriminate.
    + simplify_eq. split.
      * intros Hall. specialize (Hall sid s Hs (or_intror eq_refl)).
        rewrite Hclose in Hall. discriminate.
      * intros. split; [eauto|]. cbn. apply dom_alter_L.
  - unfold disconnect in Hrun. run_step in Hrun.
    pose proof (close_clients_run (map_to_list (sockets w)) w) as Hloop.
    destruct (close_clients (map_to_list (sockets w)) w)
      as [[res0 w0] evs0].
    destruct Hloop as (Hdom & Hok & Hfail). split.
    + intros Hall. destruct Hok as [-> Hclosed].
      { intros k s Hin. apply (Hall k s); [|left; reflexivity].
        apply elem_of_map_to_list, list_elem_of_In. exact Hin. }
      cbn in Hrun. simplify_eq. split; [reflexivity|].
      split; [reflexivity|].
      intros k [s Hs] _. rewrite app_nil_r. apply (Hclosed k s).
      apply list_elem_of_In, elem_of_map_to_list. exact Hs.
    + intros k s e Hs _ Hraise.
      destruct (Hfail k s e) as [e' ->]; [|exact Hraise|].
      { apply list_elem_of_In, elem_of_map_to_list. exact Hs. }
      simplify_eq. eauto.
Qed.

(** *** Compression *)

Lemma mem_In (x : string) (l : list string) :
  PyStr.mem x l = true <-> In x l.
Proof.
  unfold PyStr.mem. rewrite existsb_exists. split.
  - intros (y & Hin & Heq). apply String.eqb_eq in Heq. subst y. exact Hin.
  - intros Hin. exists x. split; [exact Hin|apply String.eqb_refl].
Qed.

(** The loop either stops at the first encoding of the request that the
    server lists, or finds none and leaves the descriptor alone. *)
Lemma negotiate_first_accepted (encodings : list string) (r : descriptor) :
  (exists pre e post,
      encodings = pre ++ e :: post /\
      (forall x, In x pre -> ~ In x (compression_methods cfg)) /\
      In e (compression_methods cfg) /\
      negotiate encodings r
        = mkDescriptor (status r)
            (headers r ++ [("Content-Encoding", e)])
            (compress e (response r)))
  \/ ((forall x, In x encodings -> ~ In x (compression_methods cfg)) /\
      negotiate encodings r = r).
Proof.
  induction encodings as [|e0 rest IH].
  - right. split; [intros x []|reflexivity].
  - cbn [negotiate].
    destruct (PyStr.mem e0 (compression_methods cfg)) eqn:Hmem.
    + left. exists [], e0, rest. apply mem_In in Hmem.
      repeat split; [intros x []|exact Hmem].
    + assert (~ In e0 (compression_methods cfg)) as Hout.
      { intros Hin. apply mem_In in Hin. congruence. }
      destruct IH as [(pre & e & post & -> & Hpre & He & Hneg)|[Hnone Hneg]].
      * left. exists (e0 :: pre), e, post.
        repeat split; [|exact He|exact Hneg].
        intros x [<-|Hin]; [exact Hout|exact (Hpre x Hin)].
      * right. split; [|exact Hneg].
        intros x [<-|Hin]; [exact Hout|exact (Hnone x Hin)].
Qed.

(** C2, as the code has it.  For a descriptor that reaches the assembler
    without a Content-Encoding header, the CORS headers adding none, the
    response carries a Content-Encoding header exactly when compression is
    enabled, the body is at least as long as the threshold and one of the
    request's accepted encodings is a configured method.  The header then
    names the first of the request's accepted encodings, in the order of
    the request, that is a configured method, and the body is the
    compressed one; otherwise headers and body are those of the
    descriptor. *)
Theorem content_encoding_negotiated (environ : gmap string string)
    (r : descriptor) :
  let encodings := accepted_encodings environ in
  let methods := compression_methods cfg in
  let out := assemble environ r in
  let negotiated :=
    http_compression cfg = true /\
    compression_threshold cfg <= Z.of_nat (String.length (response r)) /\
    exists e, In e encodings /\ In e methods in
  (forall e, ~ In ("Content-Encoding", e)
                  (headers r ++ _cors_headers environ)) ->
  finalize environ (VDict r)
    = Native (make_response (status out) (headers out) (response out)) /\
  status out = status r /\
  ((exists e, In ("Content-Encoding", e) (headers out)) <-> negotiated) /\
  (negotiated ->
   exists pre e post,
     encodings = pre ++ e :: post /\
     (forall x, In x pre -> ~ In x methods) /\
     In e methods /\
     headers out
       = headers r ++ [("Content-Encoding", e)] ++ _cors_headers environ /\
     response out = compress e (response r)) /\
  (~ negotiated ->
   headers out = headers r ++ _cors_headers environ /\
   response out = response r).
Proof.
  intros encodings methods out negotiated Hfresh.
  split; [reflexivity|]. split; [apply assemble_status|].
  assert (negotiated /\
          (exists pre e post,
              encodings = pre ++ e :: post /\
              (forall x, In x pre -> ~ In x methods) /\
              In e methods /\
              headers out
                = headers r ++ [("Content-Encoding", e)]
                    ++ _cors_headers environ /\
              response out = compress e (response r))
          \/ ~ negotiated /\
             headers out = headers r ++ _cors_headers environ /\
             response out = response r) as Hcases.
  { subst out negotiated. unfold assemble, compress_response.
    destruct (http_compression cfg) eqn:Hon; cbn [andb].
    - destruct (compression_threshold cfg
                <=? Z.of_nat (String.length (response r))) eqn:Hlen.
      + apply Z.leb_le in Hlen. fold encodings.
        destruct (negotiate_first_accepted encodings r)
          as [(pre & e & post & Henc & Hpre & He & ->)|[Hnone ->]].
        * left. split.
          -- repeat split; [exact Hlen|]. exists e. split; [|exact He].
             rewrite Henc. apply in_or_app. right. left. reflexivity.
          -- exists pre, e, post. cbn. rewrite <- app_assoc. auto.
        * right. split; [|split; reflexivity].
          intros (_ & _ & e & Hin & He). exact (Hnone e Hin He).
      + right. split; [|split; reflexivity].
        intros (_ & Hle & _). apply Z.leb_gt in Hlen. lia.
    - right. split; [|split; reflexivity].
      intros (Habs & _). discriminate Habs. }
  split; [|split].
  - destruct Hcases as [[Hyes (pre & e & post & _ & _ & _ & Hh & _)]
                       |[Hno [Hh _]]].
    + split; [intros _; exact Hyes|]. intros _. exists e. rewrite Hh.
      apply in_or_app. right. left. reflexivity.
    + split; [|intros Hyes; contradiction].
      intros [e Hin]. rewrite Hh in Hin. destruct (Hfresh e Hin).
  - intros Hyes. destruct Hcases as [[_ Hshape]|[Hno _]];
      [exact Hshape|contradiction].
  - intros Hno. destruct Hcases as [[Hyes _]|[_ Hshape]];
      [contradiction|exact Hshape].
Qed.

(** ** Further properties of the dispatcher *)

(** X1.  A request whose query has the name [j] is answered with a 400,
    whatever its method, session id and other parameters; nothing is
    called and only the log changes. *)
Theorem jsonp_rejected (request : Request) (w : World) (method : string)
    (j : string * list string) :
  let environ := translate_request request in
  environ !! "REQUEST_METHOD" = Some method ->
  parse_qs (default "" (environ !! "QUERY_STRING")) !! "j" = Some j ->
  exists hs body,
    handle_request request w
    = (Ok (Native (make_response 400 hs body)),
       mkWorld (sockets w) (handlers w) (app w)
         (warnings w ++ ["JSONP requests are not supported"]) (seed w),
       []).
Proof.
  intros environ Hmethod Hj.
  destruct (finalize_descriptor environ _bad_request) as (hs & body & Hfin).
  rewrite handle_request_route. fold environ.
  unfold route. run_step. rewrite Hmethod. cbn beta iota. rewrite Hj.
  cbn. rewrite Hfin. eauto.
Qed.

(** X2.  The method is read with [environ['REQUEST_METHOD']]: a request
    without that entry ends in [KeyError] before anything else is looked
    at, and the server is left as it was. *)
Theorem missing_method_raises (request : Request) (w : World) :
  translate_request request !! "REQUEST_METHOD" = None ->
  handle_request request w = (Raise (KeyError "REQUEST_METHOD"), w, []).
Proof.
  intros Hmethod. rewrite handle_request_route.
  unfold route. run_step. rewrite Hmethod. reflexivity.
Qed.

(** X3.  A method other than GET and POST is answered with a 405; nothing
    is called, the table is untouched and the method is named in the
    log. *)
Theorem unsupported_method (request : Request) (w : World)
    (method : string) :
  let environ := translate_request request in
  environ !! "REQUEST_METHOD" = Some method ->
  method <> "GET" -> method <> "POST" ->
  parse_qs (default "" (environ !! "QUERY_STRING")) !! "j" = None ->
  exists hs body,
    handle_request request w
    = (Ok (Native (make_response 405 hs body)),
       mkWorld (sockets w) (handlers w) (app w)
         (warnings w ++ ["Method " +:+ method +:+ " not supported"])
         (seed w),
       []).
Proof.
  intros environ Hmethod Hget Hpost Hj.
  destruct (finalize_descriptor environ _method_not_found)
    as (hs & body & Hfin).
  rewrite handle_request_route. fold environ.
  unfold route. run_step. rewrite Hmethod. cbn beta iota. rewrite Hj.
  apply String.eqb_neq in Hget, Hpost. cbn -[String.eqb].
  rewrite Hget, Hpost. cbn. rewrite Hfin. eauto.
Qed.

(** X4.  A POST request without session id, or with one that is not a key
    of the table, is answered with a 400; the post-handler of no socket is
    called and the table is what it was. *)
Theorem post_without_session (request : Request) (w : World) :
  let environ := translate_request request in
  let query := parse_qs (default "" (environ !! "QUERY_STRING")) in
  environ !! "REQUEST_METHOD" = Some "POST" ->
  (forall sid, first_value query "sid" = Some sid ->
               sockets w !! sid = None) ->
  exists w' hs body,
    handle_request request w
      = (Ok (Native (make_response 400 hs body)), w', []) /\
    sockets w' = sockets w.
Proof.
  intros environ query Hmethod Hunknown.
  destruct (finalize_descriptor environ _bad_request) as (hs & body & Hfin).
  rewrite handle_request_route. fold environ.
  unfold route. run_step. rewrite Hmethod. cbn beta iota. fold query.
  destruct (query !! "j") as [j|] eqn:Hj.
  - cbn. rewrite Hfin. eexists _, hs, body. split; reflexivity.
  - destruct (first_value query "sid") as [sid|] eqn:Hsid; cbn.
    + rewrite (Hunknown sid eq_refl). cbn. rewrite Hfin.
      eexists _, hs, body. split; reflexivity.
    + rewrite Hfin. eexists _, hs, body. split; reflexivity.
Qed.

(** X5.  A GET request for a session of the table whose get-handler
    returns: a list of packets becomes the 200 descriptor of its payload,
    encoded as the [b64] parameter asks, any other value is kept as it is;
    the handler is the only call; afterwards the session is removed when
    the socket reports itself closed and stays, in its new state,
    otherwise. *)
Theorem get_on_live_session (request : Request) (w : World)
    (sid : string) (rest : list string) (s s' : Socket) (v : value) :
  let environ := translate_request request in
  let query := parse_qs (default "" (environ !! "QUERY_STRING")) in
  environ !! "REQUEST_METHOD" = Some "GET" ->
  query !! "j" = None ->
  query !! "sid" = Some (sid, rest) ->
  sockets w !! sid = Some s ->
  sock_handle_get_request s environ = (Ok v, s') ->
  handle_request request w
  = (Ok (finalize environ
           match v with
           | VList packets =>
               VDict (mkDescriptor 200 []
                        (encode_payload packets (b64_flag query)))
           | _ => v
           end),
     with_sockets (if closed s' then delete sid (sockets w)
                   else <[sid := s']> (sockets w)) w,
     [mkEvent (CallHandleGet sid) (sockets w) None]).
Proof.
  intros environ query Hmethod Hj Hsid Hs Hget.
  rewrite handle_request_route. fold environ.
  unfold route. run_step. rewrite Hmethod. cbn beta iota.
  fold query. rewrite Hj. unfold first_value. rewrite Hsid. cbn.
  rewrite Hs. unfold _get_socket. rewrite Hs.
  rewrite on_socket_run, Hget. unfold del_socket.
  rewrite <- (alter_present (sockets w) sid s s' Hs).
  destruct v; cbn; rewrite lookup_alter_eq, Hs; cbn;
    (destruct (closed s'); cbn;
     [rewrite lookup_alter_eq, Hs; cbn; rewrite delete_alter_eq|]);
    destruct w; reflexivity.
Qed.

(** X6.  Only [IOError] is intercepted around the get-handler: any other
    exception leaves [handle_request] as it is, the check of [closed] is
    not reached and the session stays in the table. *)
Theorem get_handler_exception_propagates (request : Request) (w : World)
    (sid : string) (rest : list string) (s s' : Socket) (e : exn) :
  let environ := translate_request request in
  let query := parse_qs (default "" (environ !! "QUERY_STRING")) in
  environ !! "REQUEST_METHOD" = Some "GET" ->
  query !! "j" = None ->
  query !! "sid" = Some (sid, rest) ->
  sockets w !! sid = Some s ->
  sock_handle_get_request s environ = (Raise e, s') ->
  e <> IOError ->
  handle_request request w
  = (Raise e, with_sockets (<[sid := s']> (sockets w)) w,
     [mkEvent (CallHandleGet sid) (sockets w) (Some e)]).
Proof.
  intros environ query Hmethod Hj Hsid Hs Hget Hother.
  rewrite handle_request_route. fold environ.
  unfold route. run_step. rewrite Hmethod. cbn beta iota.
  fold query. rewrite Hj. unfold first_value. rewrite Hsid. cbn.
  rewrite Hs. unfold _get_socket. rewrite Hs.
  rewrite on_socket_run, Hget.
  rewrite <- (alter_present (sockets w) sid s s' Hs).
  destruct e; try congruence; reflexivity.
Qed.

(** X7.  Only [ValueError] is intercepted around the post-handler: any
    other exception leaves [handle_request] as it is, with the session
    still in the table. *)
Theorem post_handler_exception_propagates (request : Request) (w : World)
    (sid : string) (rest : list string) (s s' : Socket) (e : exn) :
  let environ := translate_request request in
  let query := parse_qs (default "" (environ !! "QUERY_STRING")) in
  environ !! "REQUEST_METHOD" = Some "POST" ->
  query !! "j" = None ->
  query !! "sid" = Some (sid, rest) ->
  sockets w !! sid = Some s ->
  sock_handle_post_request s environ = (Raise e, s') ->
  e <> ValueError ->
  handle_request request w
  = (Raise e, with_sockets (<[sid := s']> (sockets w)) w,
     [mkEvent (CallHandlePost sid) (sockets w) (Some e)]).
Proof.
  intros environ query Hmethod Hj Hsid Hs Hpost Hother.
  rewrite handle_request_route. fold environ.
  unfold route. run_step. rewrite Hmethod. cbn beta iota.
  fold query. rewrite Hj. unfold first_value. rewrite Hsid. cbn.
  rewrite Hs. unfold _get_socket. rewrite Hs.
  rewrite on_socket_run, Hpost.
  rewrite <- (alter_present (sockets w) sid s s' Hs).
  destruct e; try congruence; reflexivity.
Qed.

(** *** What a request leaves alone *)

Ltac frame_lookup :=
  cbn;
  repeat first
    [rewrite lookup_alter_ne by congruence
    |rewrite lookup_delete_ne by congruence
    |rewrite lookup_insert_ne by congruence];
  auto.

Lemma handshake_frame (environ : gmap string string) (transport : string)
    (b64 : bool) (w : World) (k : string) :
  k <> gen_id (seed w) ->
  sockets (snd (fst (_handle_connect environ transport b64 w))) !! k
    = sockets w !! k /\
  handlers (snd (fst (_handle_connect environ transport b64 w)))
    = handlers w.
Proof.
  intros Hk.
  destruct (_handle_connect environ transport b64 w) as [[res w'] evs]
    eqn:Hrun.
  cbn [fst snd].
  unfold _handle_connect, _generate_id, mark_connected, del_socket in Hrun.
  run_step in Hrun. rewrite on_socket_run in Hrun.
  destruct (sock_send _ _) as [[[]|e] s1]; cbn in Hrun;
    [|simplify_eq; split; frame_lookup].
  rewrite trigger_event_run in Hrun. cbn in Hrun.
  destruct (handlers w !! "connect") as [h|];
    [destruct (run_handler h _ environ (app w)) as [[v|e] a']|];
    cbn in Hrun; try (simplify_eq; split; frame_lookup; fail);
    (destruct (String.eqb transport "websocket");
     rewrite on_socket_run in Hrun;
     [destruct (sock_handle_get_request s1 environ) as [[v'|e'] s2]
     |destruct (sock_poll (set_connected s1)) as [[ps|e'] s2]];
     cbn in Hrun; simplify_eq; split; frame_lookup).
Qed.

(** X8.  A request touches the session it names and the one its handshake
    creates, and nothing else: every other entry of the table is exactly
    what it was, whatever the outcome, and the registered handlers are the
    same. *)
Theorem request_touches_own_session (request : Request) (w : World)
    (k : string) :
  let environ := translate_request request in
  let query := parse_qs (default "" (environ !! "QUERY_STRING")) in
  first_value query "sid" <> Some k ->
  k <> gen_id (seed w) ->
  sockets (snd (fst (handle_request request w))) !! k = sockets w !! k /\
  handlers (snd (fst (handle_request request w))) = handlers w.
Proof.
  intros environ query Hsid Hfresh.
  rewrite handle_request_route. fold environ.
  destruct (route environ w) as [[r w'] evs] eqn:Hroute. cbn [fst snd].
  unfold route in Hroute. run_step in Hroute. fold query in Hroute.
  destruct (environ !! "REQUEST_METHOD") as [method|]; cbn in Hroute;
    [|simplify_eq; auto].
  destruct (query !! "j") as [j|]; cbn in Hroute; [simplify_eq; auto|].
  destruct (String.eqb method "GET").
  - destruct (first_value query "sid") as [sid|]; cbn in Hroute.
    + assert (sid <> k) as Hne by congruence.
      destruct (sockets w !! sid) as [s|] eqn:Hs; cbn in Hroute;
        [|simplify_eq; auto].
      unfold _get_socket, del_socket in Hroute. rewrite Hs in Hroute.
      rewrite on_socket_run in Hroute.
      destruct (sock_handle_get_request s environ) as [[v|e] s'];
        cbn in Hroute.
      * repeat (case_match; cbn in *; simplify_eq); simplify_eq;
          split; frame_lookup.
      * destruct e; cbn in Hroute;
          repeat (case_match; cbn in *; simplify_eq); simplify_eq;
          split; frame_lookup.
    + destruct (_ && _); cbn in Hroute; [simplify_eq; auto|].
      pose proof (handshake_frame environ
                    (default "polling" (first_value query "transport"))
                    (b64_flag query) w k Hfresh) as Hframe.
      destruct (_handle_connect environ _ _ w) as [[r0 w0] evs0].
      cbn in Hframe. simplify_eq. exact Hframe.
  - destruct (String.eqb method "POST"); cbn in Hroute;
      [|simplify_eq; auto].
    destruct (first_value query "sid") as [sid|]; cbn in Hroute;
      [|simplify_eq; auto].
    assert (sid <> k) as Hne by congruence.
    destruct (sockets w !! sid) as [s|] eqn:Hs; cbn in Hroute;
      [|simplify_eq; auto].
    unfold _get_socket in Hroute. rewrite Hs in Hroute.
    rewrite on_socket_run in Hroute.
    destruct (sock_handle_post_request s environ) as [[[]|e] s'];
      cbn in Hroute; [|destruct e; cbn in Hroute];
      simplify_eq; split; frame_lookup.
Qed.

(** *** What a request calls *)

Lemma handshake_call_kinds (environ : gmap string string)
    (transport : string) (b64 : bool) (w : World) :
  Forall (fun ev =>
            match ev_call ev with
            | CallClose _ | CallHandlePost _ => False
            | CallHandler name _ => name = "connect"
            | CallSend _ pkt => packet_type_of pkt = OPEN
            | _ => True
            end)
    (snd (_handle_connect environ transport b64 w)).
Proof.
  destruct (_handle_connect environ transport b64 w) as [[res w'] evs]
    eqn:Hrun.
  cbn [snd].
  unfold _handle_connect, _generate_id, mark_connected, del_socket in Hrun.
  run_step in Hrun. rewrite on_socket_run in Hrun.
  destruct (sock_send _ _) as [[[]|e] s1]; cbn in Hrun;
    [|simplify_eq; repeat constructor].
  rewrite trigger_event_run in Hrun. cbn in Hrun.
  destruct (handlers w !! "connect") as [h|];
    [destruct (run_handler h _ environ (app w)) as [[v|e] a']|];
    cbn in Hrun; try (simplify_eq; repeat constructor; fail);
    (destruct (String.eqb transport "websocket");
     rewrite on_socket_run in Hrun;
     [destruct (sock_handle_get_request s1 environ) as [[v'|e'] s2]
     |destruct (sock_poll (set_connected s1)) as [[ps|e'] s2]];
     cbn in Hrun; simplify_eq; repeat constructor).
Qed.

(** X9.  [handle_request] never calls [close] on a socket and triggers no
    event but connect: a session it drops, after an [IOError] or because
    the socket reports itself closed, leaves the table without either.
    The only packet it sends is the OPEN packet of a handshake. *)
Theorem request_call_kinds (request : Request) (w : World) :
  Forall (fun ev =>
            match ev_call ev with
            | CallClose _ => False
            | CallHandler name _ => name = "connect"
            | CallSend _ pkt => packet_type_of pkt = OPEN
            | _ => True
            end)
    (snd (handle_request request w)).
Proof.
  rewrite handle_request_route.
  set (environ := translate_request request).
  set (query := parse_qs (default "" (environ !! "QUERY_STRING"))).
  destruct (route environ w) as [[r w'] evs] eqn:Hroute. cbn [snd].
  unfold route in Hroute. run_step in Hroute. fold query in Hroute.
  destruct (environ !! "REQUEST_METHOD") as [method|]; cbn in Hroute;
    [|simplify_eq; constructor].
  destruct (query !! "j") as [j|]; cbn in Hroute;
    [simplify_eq; constructor|].
  destruct (String.eqb method "GET").
  - destruct (first_value query "sid") as [sid|]; cbn in Hroute.
    + destruct (sockets w !! sid) as [s|] eqn:Hs; cbn in Hroute;
        [|simplify_eq; constructor].
      unfold _get_socket, del_socket in Hroute. rewrite Hs in Hroute.
      rewrite on_socket_run in Hroute.
      destruct (sock_handle_get_request s environ) as [[v|e] s'];
        cbn in Hroute.
      * repeat (case_match; cbn in *; simplify_eq); simplify_eq;
          repeat constructor.
      * destruct e; cbn in Hroute;
          repeat (case_match; cbn in *; simplify_eq); simplify_eq;
          repeat constructor.
    + destruct (_ && _); cbn in Hroute; [simplify_eq; constructor|].
      pose proof (handshake_call_kinds environ
                    (default "polling" (first_value query "transport"))
                    (b64_flag query) w) as Hkinds.
      destruct (_handle_connect environ _ _ w) as [[r0 w0] evs0].
      cbn in Hkinds. simplify_eq.
      eapply Forall_impl; [exact Hkinds|].
      intros ev Hev. cbv beta in Hev.
      destruct (ev_call ev); first [exact Hev|exact I|destruct Hev].
  - destruct (String.eqb method "POST"); cbn in Hroute;
      [|simplify_eq; constructor].
    destruct (first_value query "sid") as [sid|]; cbn in Hroute;
      [|simplify_eq; constructor].
    destruct (sockets w !! sid) as [s|] eqn:Hs; cbn in Hroute;
      [|simplify_eq; constructor].
    unfold _get_socket in Hroute. rewrite Hs in Hroute.
    rewrite on_socket_run in Hroute.
    destruct (sock_handle_post_request s environ) as [[[]|e] s'];
      cbn in Hroute; [|destruct e; cbn in Hroute];
      simplify_eq; repeat constructor.
Qed.

(** ** Further properties of the handshake *)

(** The table after a handshake, whatever its outcome: the old one with
    the new session. *)
Lemma handshake_table (environ : gmap string string) (transport : string)
    (b64 : bool) (w : World) :
  exists s,
    sockets (snd (fst (_handle_connect environ transport b64 w)))
    = <[gen_id (seed w) := s]> (sockets w).
Proof.
  destruct (_handle_connect environ transport b64 w) as [[res w'] evs]
    eqn:Hrun.
  cbn [fst snd].
  unfold _handle_connect, _generate_id, mark_connected, del_socket in Hrun.
  run_step in Hrun. rewrite on_socket_run in Hrun.
  destruct (sock_send _ _) as [[[]|e] s1]; cbn in Hrun.
  2:{ simplify_eq. eexists. cbn. apply alter_insert_eq. }
  rewrite trigger_event_run in Hrun. cbn in Hrun.
  destruct (handlers w !! "connect") as [h|];
    [destruct (run_handler h _ environ (app w)) as [[v|e] a']|];
    cbn in Hrun;
    try (destruct (String.eqb transport "websocket");
         rewrite on_socket_run in Hrun;
         [destruct (sock_handle_get_request s1 environ) as [[v'|e'] s2]
         |destruct (sock_poll (set_connected s1)) as [[ps|e'] s2]];
         cbn in Hrun);
    simplify_eq; eexists; cbn; rewrite !alter_insert_eq; reflexivity.
Qed.

(** X10.  A handshake for polling whose send and poll succeed, with no
    connect handler or one that returns: the answer is the 200 descriptor
    of the first poll, the table is the old one with the new session in
    its state after the poll, which makes it one entry larger when the id
    is fresh, and the answer carries a Set-Cookie header exactly when a
    cookie name is configured and not empty. *)
Theorem polling_handshake_opens_session (environ : gmap string string)
    (b64 : bool) (w : World) (s1 s2 : Socket) (packets : list Packet) :
  let sid := gen_id (seed w) in
  sock_send (new_socket sid) (open_packet sid "polling") = (Ok tt, s1) ->
  (forall h, handlers w !! "connect" = Some h ->
             exists v, fst (run_handler h sid environ (app w)) = Ok v) ->
  sock_poll (set_connected s1) = (Ok packets, s2) ->
  exists w' evs hs,
    _handle_connect environ "polling" b64 w
      = (Ok (VDict (mkDescriptor 200 hs (encode_payload packets b64))),
         w', evs) /\
    sockets w' = <[sid := s2]> (sockets w) /\
    (sockets w !! sid = None -> size (sockets w') = S (size (sockets w))) /\
    (forall x, In ("Set-Cookie", x) hs <->
               exists c, cookie cfg = Some c /\ c <> ""
                         /\ x = c +:+ "=" +:+ sid).
Proof.
  intros sid Hsend Hhandler Hpoll.
  assert (forall x, In ("Set-Cookie", x) (default [] (cookie_headers sid)) <->
                    exists c, cookie cfg = Some c /\ c <> ""
                              /\ x = c +:+ "=" +:+ sid) as Hcookie.
  { intros x. unfold cookie_headers.
    destruct (cookie cfg) as [c|]; cbn.
    - destruct (String.eqb c "") eqn:Hc; cbn.
      + apply String.eqb_eq in Hc. split; [intros []|].
        intros (c0 & [= <-] & Hne & _). contradiction.
      + apply String.eqb_neq in Hc. split.
        * intros [[= <-]|[]]. eauto.
        * intros (c0 & [= <-] & _ & ->). left. reflexivity.
    - split; [intros []|]. intros (c0 & Hc0 & _). discriminate. }
  assert (forall m : gmap string Socket,
             m !! sid = None -> size (<[sid := s2]> m) = S (size m))
    as Hsize by (intros m; apply map_size_insert_None).
  unfold _handle_connect, _generate_id, mark_connected.
  run_step. fold sid. rewrite on_socket_run, Hsend. cbn.
  rewrite trigger_event_run. cbn.
  destruct (handlers w !! "connect") as [h|] eqn:Hh.
  - destruct (Hhandler h eq_refl) as [v Hv].
    destruct (run_handler h sid environ (app w)) as [r a']. cbn in Hv.
    subst r. cbn. rewrite on_socket_run, Hpoll. cbn.
    eexists _, _, _. split; [reflexivity|]. cbn.
    rewrite !alter_insert_eq. split; [reflexivity|].
    split; [apply Hsize|exact Hcookie].
  - cbn. rewrite on_socket_run, Hpoll. cbn.
    eexists _, _, _. split; [reflexivity|]. cbn.
    rewrite !alter_insert_eq. split; [reflexivity|].
    split; [apply Hsize|exact Hcookie].
Qed.

(** X11.  A handshake for websocket whose send succeeds, with no connect
    handler or one that returns, hands the request to the get-handler of
    the new socket and returns what that call returns, as it is; the
    socket is not marked connected and is never polled. *)
Theorem websocket_handshake_delegates (environ : gmap string string)
    (b64 : bool) (w : World) (s1 s2 : Socket) (v : value) :
  let sid := gen_id (seed w) in
  sock_send (new_socket sid) (open_packet sid "websocket") = (Ok tt, s1) ->
  (forall h, handlers w !! "connect" = Some h ->
             exists v0, fst (run_handler h sid environ (app w)) = Ok v0) ->
  sock_handle_get_request s1 environ = (Ok v, s2) ->
  exists w' evs,
    _handle_connect environ "websocket" b64 w = (Ok v, w', evs) /\
    sockets w' = <[sid := s2]> (sockets w) /\
    Forall (fun ev => ev_call ev <> CallPoll sid) evs /\
    last evs = Some (mkEvent (CallHandleGet sid)
                       (<[sid := s1]> (sockets w)) None).
Proof.
  intros sid Hsend Hhandler Hget.
  unfold _handle_connect, _generate_id, mark_connected.
  run_step. fold sid. rewrite on_socket_run, Hsend. cbn.
  rewrite trigger_event_run. cbn.
  destruct (handlers w !! "connect") as [h|] eqn:Hh.
  - destruct (Hhandler h eq_refl) as [v0 Hv].
    destruct (run_handler h sid environ (app w)) as [r a']. cbn in Hv.
    subst r. cbn. rewrite on_socket_run, Hget. cbn.
    eexists _, _. split; [reflexivity|]. cbn.
    rewrite !alter_insert_eq. split; [reflexivity|].
    split; [repeat constructor; discriminate|reflexivity].
  - cbn. rewrite on_socket_run, Hget. cbn.
    eexists _, _. split; [reflexivity|]. cbn.
    rewrite !alter_insert_eq. split; [reflexivity|].
    split; [repeat constructor; discriminate|reflexivity].
Qed.

(** X12.  A handshake that ends in an exception, raised by the send, the
    connect handler, the poll or the get-handler, leaves the session it
    created in the table: nothing takes the entry back. *)
Theorem failed_handshake_keeps_entry (environ : gmap string string)
    (transport : string) (b64 : bool) (w w' : World) (e : exn)
    (evs : list event) :
  _handle_connect environ transport b64 w = (Raise e, w', evs) ->
  is_Some (sockets w' !! gen_id (seed w)) /\
  exists ev, last evs = Some ev /\ ev_raised ev = Some e.
Proof.
  intros Hrun. split.
  - destruct (handshake_table environ transport b64 w) as [s Hs].
    rewrite Hrun in Hs. cbn in Hs. rewrite Hs, lookup_insert_eq. eauto.
  - unfold _handle_connect, _generate_id, mark_connected, del_socket
      in Hrun.
    run_step in Hrun. rewrite on_socket_run in Hrun.
    destruct (sock_send _ _) as [[[]|e0] s1]; cbn in Hrun;
      [|simplify_eq; eexists; split; reflexivity].
    rewrite trigger_event_run in Hrun. cbn in Hrun.
    destruct (handlers w !! "connect") as [h|];
      [destruct (run_handler h _ environ (app w)) as [[v|e0] a']|];
      cbn in Hrun;
      try (destruct (String.eqb transport "websocket");
           rewrite on_socket_run in Hrun;
           [destruct (sock_handle_get_request s1 environ) as [[v'|e'] s2]
           |destruct (sock_poll (set_connected s1)) as [[ps|e'] s2]];
           cbn in Hrun);
      simplify_eq; eexists; split; reflexivity.
Qed.

(** X13.  [_trigger_event] calls the handler registered for the event
    once, with the session id and the environment, be it a function or a
    coroutine function; an exception of the handler is passed on, and a
    value it returns is dropped: the result is [None].  Without a handler
    for the event nothing happens. *)
Theorem trigger_event_outcome (name sid : string)
    (environ : gmap string string) (w : World) :
  (handlers w !! name = None ->
   _trigger_event name sid environ w = (Ok VNone, w, [])) /\
  (forall h, handlers w !! name = Some h ->
     _trigger_event name sid environ w
     = (match fst (run_handler h sid environ (app w)) with
        | Ok _ => Ok VNone
        | Raise e => Raise e
        end,
        with_app (snd (run_handler h sid environ (app w))) w,
        [mkEvent (CallHandler name sid) (sockets w)
           (raised (fst (run_handler h sid environ (app w))))])).
Proof.
  rewrite trigger_event_run. split.
  - intros ->. reflexivity.
  - intros h ->. destruct (run_handler h sid environ (app w)) as [r a'].
    reflexivity.
Qed.

(** ** Further properties of [send] and [disconnect] *)

(** X14.  A [send] to a session of the table makes one call, the socket's
    [send] with a MESSAGE packet that carries the data and the binary flag
    as given; nothing is logged, and an exception of the socket, a
    [KeyError] included, is passed on. *)
Theorem send_to_live_session (w : World) (sid data : string)
    (binary : option bool) (s : Socket) :
  let pkt := mkPacket MESSAGE (Message data) binary in
  sockets w !! sid = Some s ->
  send sid data binary w
  = (match fst (sock_send s pkt) with
     | Ok _ => Ok tt
     | Raise e => Raise e
     end,
     with_sockets (<[sid := snd (sock_send s pkt)]> (sockets w)) w,
     [mkEvent (CallSend sid pkt) (sockets w)
        (raised (fst (sock_send s pkt)))]).
Proof.
  intros pkt Hs. unfold send, _get_socket. run_step. rewrite Hs. cbn.
  rewrite on_socket_run. fold pkt.
  rewrite (alter_present _ _ s) by exact Hs.
  destruct (sock_send s pkt) as [[[]|e] s']; reflexivity.
Qed.

(** X15.  [disconnect] with a session id that is not in the table ends in
    [KeyError]; no socket is closed and the server is left as it was. *)
Theorem disconnect_unknown_sid (w : World) (sid : string) :
  sockets w !! sid = None ->
  exists what, disconnect (Some sid) w = (Raise (KeyError what), w, []).
Proof.
  intros Habsent. unfold disconnect, _get_socket. run_step.
  rewrite Habsent. eauto.
Qed.

(** X16.  After a [disconnect] of a session that returned, the session is
    unknown: a second [disconnect] of it ends in [KeyError] and a [send]
    to it is dropped with a warning, neither reaching a socket. *)
Theorem disconnected_session_is_unknown (w w' : World) (sid data : string)
    (binary : option bool) (evs : list event) :
  disconnect (Some sid) w = (Ok tt, w', evs) ->
  sockets w' !! sid = None /\
  (exists what,
      disconnect (Some sid) w' = (Raise (KeyError what), w', [])) /\
  (exists w'', send sid data binary w' = (Ok tt, w'', []) /\
               sockets w'' = sockets w').
Proof.
  intros Hrun.
  assert (sockets w' !! sid = None) as Hgone.
  { unfold disconnect, _get_socket, del_socket in Hrun. run_step in Hrun.
    destruct (sockets w !! sid) as [s|] eqn:Hs; [|discriminate Hrun].
    rewrite on_socket_run in Hrun.
    destruct (sock_close s) as [[[]|e] s']; cbn in Hrun;
      [|discriminate Hrun].
    rewrite lookup_alter_eq, Hs in Hrun. cbn in Hrun. simplify_eq.
    cbn. apply lookup_delete_eq. }
  split; [exact Hgone|]. split.
  - unfold disconnect, _get_socket. run_step. rewrite Hgone. eauto.
  - unfold send, _get_socket. run_step. rewrite Hgone. cbn.
    eexists. split; reflexivity.
Qed.

(** X17.  A handshake that returns, followed by a [disconnect] of the new
    session whose [close] succeeds, gives back the table from before the
    handshake, provided the id was fresh. *)
Theorem handshake_then_disconnect (environ : gmap string string)
    (transport : string) (b64 : bool) (w w1 : World) (r : value)
    (evs1 : list event) :
  let sid := gen_id (seed w) in
  sockets w !! sid = None ->
  _handle_connect environ transport b64 w = (Ok r, w1, evs1) ->
  (forall s, sockets w1 !! sid = Some s -> fst (sock_close s) = Ok tt) ->
  exists w2 evs2,
    disconnect (Some sid) w1 = (Ok tt, w2, evs2) /\
    sockets w2 = sockets w.
Proof.
  intros sid Hfresh Hrun Hclose.
  destruct (handshake_table environ transport b64 w) as [s Hs].
  rewrite Hrun in Hs. cbn in Hs. fold sid in Hs.
  assert (sockets w1 !! sid = Some s) as Hlive
    by (rewrite Hs; apply lookup_insert_eq).
  specialize (Hclose s Hlive).
  unfold disconnect, _get_socket, del_socket. run_step.
  rewrite Hlive, on_socket_run.
  destruct (sock_close s) as [[[]|e] s']; cbn in Hclose;
    [|discriminate Hclose].
  cbn. rewrite lookup_alter_eq, Hlive. cbn.
  eexists _, _. split; [reflexivity|]. cbn.
  rewrite delete_alter_eq, Hs. apply delete_insert_id, Hfresh.
Qed.

(** The calls of the loop over the clients. *)
Lemma close_clients_calls (clients : list (string * Socket)) (w : World) :
  NoDup (map fst clients) ->
  NoDup (map ev_call (snd (close_clients clients w))) /\
  Forall (fun ev => exists k s, ev_call ev = CallClose k /\ In (k, s) clients)
    (snd (close_clients clients w)) /\
  (fst (fst (close_clients clients w)) = Ok tt ->
   length (snd (close_clients clients w)) = length clients /\
   Forall (fun ev => ev_raised ev = None) (snd (close_clients clients w))) /\
  (forall e, fst (fst (close_clients clients w)) = Raise e ->
             exists pre ev,
               snd (close_clients clients w) = pre ++ [ev] /\
               ev_raised ev = Some e /\
               Forall (fun ev => ev_raised ev = None) pre).
Proof.
  revert w. induction clients as [|[k0 s0] rest IH]; intros w Hnodup.
  - cbn. repeat split; try constructor. intros e [=].
  - cbn [close_clients]. unfold bind. rewrite on_socket_run.
    cbn [map fst] in Hnodup. apply NoDup_cons in Hnodup as [Hk0 Hrest].
    destruct (sock_close s0) as [[[]|e0] s0'] eqn:Hclose; cbn.
    + specialize (IH (with_sockets (alter (fun _ => s0') k0 (sockets w)) w)
                     Hrest).
      destruct (close_clients rest _) as [[res w'] evs].
      cbn in IH. destruct IH as (Hnd & Hin & Hok & Hfail). cbn.
      split; [|split; [|split]].
      * apply NoDup_cons. split; [|exact Hnd].
        intros Hdup.
        apply list_elem_of_In, in_map_iff in Hdup as (ev & Hcall & Hev).
        rewrite Forall_forall in Hin.
        destruct (Hin ev) as (k & s & Hk & Hks);
          [apply list_elem_of_In; exact Hev|].
        rewrite Hk in Hcall. injection Hcall as ->.
        apply Hk0. apply list_elem_of_In, in_map_iff.
        exists (k0, s). auto.
      * constructor; [exists k0, s0; split; [reflexivity|left; reflexivity]|].
        eapply Forall_impl; [exact Hin|].
        intros ev (k & s & Hk & Hks). exists k, s. split; [exact Hk|].
        right. exact Hks.
      * intros Hres. destruct (Hok Hres) as [Hlen Hnone].
        split; [cbn; rewrite Hlen; reflexivity|].
        constructor; [reflexivity|exact Hnone].
      * intros e Hres. destruct (Hfail e Hres) as (pre & ev & -> & He & Hpre).
        eexists (_ :: pre), ev. split; [reflexivity|]. split; [exact He|].
        constructor; [reflexivity|exact Hpre].
    + split; [|split; [|split]].
      * apply NoDup_singleton.
      * repeat constructor. exists k0, s0. split; [reflexivity|].
        left. reflexivity.
      * intros [=].
      * intros e [= <-]. eexists [], _. repeat split. constructor.
Qed.

(** X18.  [disconnect] without a session id closes sessions of the table
    only and none of them twice.  When it returns, it has made one call
    for each entry and none has failed; when it ends in an exception, that
    exception is the one of the last call it made, and the calls before it
    succeeded. *)
Theorem disconnect_all_closes_once (w : World) :
  let res := fst (fst (disconnect None w)) in
  let evs := snd (disconnect None w) in
  NoDup (map ev_call evs) /\
  Forall (fun ev => exists k, ev_call ev = CallClose k
                              /\ is_Some (sockets w !! k)) evs /\
  (res = Ok tt ->
   length evs = size (sockets w) /\
   Forall (fun ev => ev_raised ev = None) evs) /\
  (forall e, res = Raise e ->
             exists pre ev,
               evs = pre ++ [ev] /\
               ev_raised ev = Some e /\
               Forall (fun ev => ev_raised ev = None) pre).
Proof.
  intros res evs. subst res evs. unfold disconnect. run_step.
  pose proof (close_clients_calls (map_to_list (sockets w)) w) as Hloop.
  destruct Hloop as (Hnd & Hin & Hok & Hfail).
  { exact (NoDup_fst_map_to_list (sockets w)). }
  destruct (close_clients (map_to_list (sockets w)) w) as [[r w'] evs].
  cbn in Hnd, Hin, Hok, Hfail.
  assert (Forall (fun ev => exists k, ev_call ev = CallClose k
                                      /\ is_Some (sockets w !! k)) evs)
    as Hin'.
  { eapply Forall_impl; [exact Hin|].
    intros ev (k & s & Hk & Hks). exists k. split; [exact Hk|].
    exists s. apply elem_of_map_to_list, list_elem_of_In. exact Hks. }
  destruct r as [[]|e0]; cbn; rewrite ?app_nil_r.
  - split; [exact Hnd|]. split; [exact Hin'|]. split.
    + intros _. destruct (Hok eq_refl) as [Hlen Hnone].
      split; [|exact Hnone]. rewrite Hlen.
      apply length_map_to_list.
    + intros e [=].
  - split; [exact Hnd|]. split; [exact Hin'|]. split.
    + intros [=].
    + exact Hfail.
Qed.

(** ** The accepted encodings of a request *)

Lemma append_cons (c : ascii) (a b : string) :
  String c a +:+ b = String c (a +:+ b).
Proof. reflexivity. Qed.

Lemma append_empty_l (b : string) : "" +:+ b = b.
Proof. reflexivity. Qed.

Lemma append_empty_r (a : string) : a +:+ "" = a.
Proof.
  induction a as [|c a IH]; [reflexivity|].
  rewrite append_cons, IH. reflexivity.
Qed.

Lemma has_append (c : ascii) (a b : string) :
  PyStr.has c (a +:+ b) = PyStr.has c a || PyStr.has c b.
Proof.
  induction a as [|d a IH]; [reflexivity|].
  rewrite append_cons. cbn. rewrite IH. apply orb_assoc.
Qed.

Lemma blank_has (c : ascii) (l : string) :
  PyStr.is_space c = false -> PyStr.blank l = true -> PyStr.has c l = false.
Proof.
  intros Hc. induction l as [|d l IH]; cbn; [reflexivity|].
  intros Hblank. apply andb_true_iff in Hblank as [Hd Hl].
  rewrite (IH Hl), orb_false_r.
  destruct (Ascii.eqb d c) eqn:Heq; [|reflexivity].
  apply Ascii.eqb_eq in Heq. congruence.
Qed.

Lemma split_without_sep (sep : ascii) (a : string) :
  PyStr.has sep a = false -> PyStr.split sep a = [a].
Proof.
  induction a as [|c a IH]; cbn; [reflexivity|].
  intros Hhas. apply orb_false_iff in Hhas as [Hc Ha].
  rewrite Hc, (IH Ha). reflexivity.
Qed.

Lemma split_at_sep (sep : ascii) (a b : string) :
  PyStr.has sep a = false ->
  PyStr.split sep (a +:+ String sep b) = a :: PyStr.split sep b.
Proof.
  induction a as [|c a IH].
  - intros _. rewrite append_empty_l. cbn.
    rewrite Ascii.eqb_refl. reflexivity.
  - intros Hhas. cbn in Hhas. apply orb_false_iff in Hhas as [Hc Ha].
    rewrite append_cons. cbn. rewrite Hc, (IH Ha). reflexivity.
Qed.

Lemma split_join (sep : ascii) (pieces : list string) :
  pieces <> [] ->
  Forall (fun x => PyStr.has sep x = false) pieces ->
  PyStr.split sep (PyStr.join sep pieces) = pieces.
Proof.
  induction pieces as [|x rest IH]; [congruence|].
  intros _ Hclean. apply Forall_cons in Hclean as [Hx Hrest].
  destruct rest as [|y rest].
  - cbn. apply split_without_sep, Hx.
  - change (PyStr.join sep (x :: y :: rest))
      with (x +:+ String sep (PyStr.join sep (y :: rest))).
    rewrite (split_at_sep sep x _ Hx), IH; [reflexivity|congruence|exact Hrest].
Qed.

Lemma lstrip_of_blank (l x : string) :
  PyStr.blank l = true -> PyStr.lstrip (l +:+ x) = PyStr.lstrip x.
Proof.
  induction l as [|c l IH]; [reflexivity|].
  intros Hblank. cbn in Hblank.
  apply andb_true_iff in Hblank as [Hc Hl].
  rewrite append_cons. cbn. rewrite Hc. exact (IH Hl).
Qed.

Lemma rstrip_of_blank (t r : string) :
  PyStr.blank r = true -> PyStr.rstrip (t +:+ r) = PyStr.rstrip t.
Proof.
  intros Hblank. induction t as [|c t IH].
  - rewrite append_empty_l. cbn.
    induction r as [|d r IHr]; cbn; [reflexivity|].
    cbn in Hblank. apply andb_true_iff in Hblank as [Hd Hr].
    rewrite (IHr Hr), Hd. reflexivity.
  - rewrite append_cons. cbn. rewrite IH. reflexivity.
Qed.

Lemma lstrip_length (t : string) :
  (String.length (PyStr.lstrip t) <= String.length t)%nat.
Proof.
  induction t as [|c t IH]; cbn; [lia|].
  destruct (PyStr.is_space c); cbn; lia.
Qed.

Lemma rstrip_length (t : string) :
  (String.length (PyStr.rstrip t) <= String.length t)%nat.
Proof.
  induction t as [|c t IH]; cbn; [lia|].
  destruct (PyStr.rstrip t); [destruct (PyStr.is_space c)|]; cbn in *; lia.
Qed.

(** A string that [strip] leaves alone is empty or starts with a
    character that is not white space, and [rstrip] leaves it alone. *)
Lemma strip_fixed (t : string) :
  PyStr.strip t = t ->
  PyStr.rstrip t = t /\
  match t with
  | EmptyString => True
  | String c _ => PyStr.is_space c = false
  end.
Proof.
  intros Hfix. unfold PyStr.strip in Hfix.
  assert (PyStr.lstrip t = t) as Hl.
  { destruct t as [|c t]; [reflexivity|]. cbn in *.
    destruct (PyStr.is_space c); [|reflexivity].
    pose proof (rstrip_length (PyStr.lstrip t)) as H1.
    pose proof (lstrip_length t) as H2.
    rewrite Hfix in H1. cbn in H1. lia. }
  rewrite Hl in Hfix. split; [exact Hfix|].
  destruct t as [|c t]; [exact I|]. cbn in Hl.
  destruct (PyStr.is_space c); [|reflexivity].
  pose proof (lstrip_length t) as H2. rewrite Hl in H2. cbn in H2. lia.
Qed.

Lemma strip_padded (l t r : string) :
  PyStr.blank l = true -> PyStr.blank r = true -> PyStr.strip t = t ->
  PyStr.strip (l +:+ t +:+ r) = t.
Proof.
  intros Hl Hr Hfix. destruct (strip_fixed t Hfix) as [Hrt Hhead].
  unfold PyStr.strip. rewrite (lstrip_of_blank l _ Hl).
  destruct t as [|c t].
  - rewrite append_empty_l. rewrite <- (append_empty_r r).
    rewrite (lstrip_of_blank r "" Hr). reflexivity.
  - assert (PyStr.lstrip (String c t +:+ r) = String c t +:+ r) as ->
      by (rewrite append_cons; cbn; rewrite Hhead; reflexivity).
    rewrite (rstrip_of_blank _ r Hr). exact Hrt.
Qed.

(** X19.  The encodings read from the [ACCEPT_ENCODING] entry are the
    tokens of its comma-separated items, in the order of the header: white
    space around a token and the parameters after its first semicolon,
    a q-value for one, are dropped. *)
Theorem accepted_encodings_parse
    (items : list (string * string * string * option string))
    (environ : gmap string string) :
  let piece := fun '(l, t, r, p) =>
    (l +:+ t +:+ r) +:+ match p : option string with
                        | Some q => String ";" q
                        | None => ""
                        end in
  items <> [] ->
  Forall (fun '(l, t, r, p) =>
            PyStr.blank l = true /\ PyStr.blank r = true /\
            PyStr.strip t = t /\
            PyStr.has "," t = false /\ PyStr.has ";" t = false /\
            forall q, p = Some q -> PyStr.has "," q = false) items ->
  environ !! "ACCEPT_ENCODING" = Some (PyStr.join "," (map piece items)) ->
  accepted_encodings environ = map (fun '(l, t, r, p) => t) items.
Proof.
  intros piece Hitems Hclean Hheader.
  unfold accepted_encodings. rewrite Hheader. cbn [default from_option id].
  rewrite split_join.
  - rewrite map_map. apply map_ext_in.
    intros [[[l t] r] p] Hin. rewrite Forall_forall in Hclean.
    destruct (Hclean _ (proj2 (list_elem_of_In _ _) Hin))
      as (Hl & Hr & Hfix & _ & Hsemi & _).
    assert (PyStr.has ";" (l +:+ t +:+ r) = false) as Hnone.
    { rewrite !has_append, Hsemi.
      rewrite (blank_has ";" l), (blank_has ";" r); auto. }
    cbn [piece]. destruct p as [q|].
    + rewrite (split_at_sep ";" _ q Hnone). cbn.
      apply strip_padded; assumption.
    + rewrite append_empty_r, (split_without_sep ";" _ Hnone). cbn.
      apply strip_padded; assumption.
  - destruct items; [congruence|discriminate].
  - apply Forall_forall. intros x Hx.
    apply list_elem_of_In, in_map_iff in Hx as ([[[l t] r] p] & <- & Hin).
    rewrite Forall_forall in Hclean.
    destruct (Hclean _ (proj2 (list_elem_of_In _ _) Hin))
      as (Hl & Hr & _ & Hcomma & _ & Hp).
    cbn [piece]. rewrite !has_append, Hcomma.
    rewrite (blank_has "," l), (blank_has "," r) by auto. cbn.
    destruct p as [q|]; [|reflexivity]. cbn. exact (Hp q eq_refl).
Qed.

(** ** Further properties of the assembler *)

(** X20.  The assembler keeps the status and the headers of the
    descriptor, in their order, and always ends the header list with the
    CORS headers, compression or not; between the two it puts at most one
    header, the Content-Encoding of a compressed body. *)
Theorem cors_headers_always_last (environ : gmap string string)
    (r : descriptor) :
  let out := assemble environ r in
  status out = status r /\
  exists added,
    headers out = headers r ++ added ++ _cors_headers environ /\
    (added = [] /\ response out = response r
     \/ exists e,
         added = [("Content-Encoding", e)] /\
         In e (accepted_encodings environ) /\
         In e (compression_methods cfg) /\
         response out = compress e (response r)).
Proof.
  intros out. split; [apply assemble_status|].
  subst out. unfold assemble, compress_response.
  destruct (_ && _).
  - destruct (negotiate_first_accepted (accepted_encodings environ) r)
      as [(pre & e & post & Henc & _ & He & ->)|[_ ->]].
    + exists [("Content-Encoding", e)]. cbn. rewrite <- app_assoc.
      split; [reflexivity|]. right. exists e.
      repeat split; try assumption.
      rewrite Henc. apply in_or_app. right. left. reflexivity.
    + exists []. split; [reflexivity|]. left. split; reflexivity.
  - exists []. split; [reflexivity|]. left. split; reflexivity.
Qed.

Ltac no_new_key :=
  split; cbn;
  [reflexivity
  |let k := fresh "k" in
   let Hk := fresh "Hk" in
   intros k Hk;
   repeat (apply lookup_delete_is_Some in Hk as [_ Hk]);
   rewrite ?lookup_alter_is_Some in Hk; exact Hk].

(** X21.  A request that names a session never creates one and draws no
    session id: every key of the table after the request was a key before
    it, whatever the method and the outcome. *)
Theorem request_with_sid_adds_no_session (request : Request) (w : World)
    (sid : string) :
  let environ := translate_request request in
  let query := parse_qs (default "" (environ !! "QUERY_STRING")) in
  first_value query "sid" = Some sid ->
  seed (snd (fst (handle_request request w))) = seed w /\
  forall k, is_Some (sockets (snd (fst (handle_request request w))) !! k) ->
            is_Some (sockets w !! k).
Proof.
  intros environ query Hsid.
  rewrite handle_request_route. fold environ.
  destruct (route environ w) as [[r w'] evs] eqn:Hroute. cbn [fst snd].
  unfold route in Hroute. run_step in Hroute. fold query in Hroute.
  rewrite Hsid in Hroute.
  destruct (environ !! "REQUEST_METHOD") as [method|]; cbn in Hroute;
    [|simplify_eq; no_new_key].
  destruct (query !! "j") as [j|]; cbn in Hroute; [simplify_eq; no_new_key|].
  destruct (String.eqb method "GET").
  - cbn in Hroute.
    destruct (sockets w !! sid) as [s|] eqn:Hs; cbn in Hroute;
      [|simplify_eq; no_new_key].
    unfold _get_socket, del_socket in Hroute. rewrite Hs in Hroute.
    rewrite on_socket_run in Hroute.
    destruct (sock_handle_get_request s environ) as [[v|e] s'];
      cbn in Hroute.
    + repeat (case_match; cbn in *; simplify_eq); simplify_eq;
        no_new_key.
    + destruct e; cbn in Hroute;
        repeat (case_match; cbn in *; simplify_eq); simplify_eq;
        no_new_key.
  - destruct (String.eqb method "POST"); cbn in Hroute;
      [|simplify_eq; no_new_key].
    destruct (sockets w !! sid) as [s|] eqn:Hs; cbn in Hroute;
      [|simplify_eq; no_new_key].
    unfold _get_socket in Hroute. rewrite Hs in Hroute.
    rewrite on_socket_run in Hroute.
    destruct (sock_handle_post_request s environ) as [[[]|e] s'];
      cbn in Hroute; [|destruct e; cbn in Hroute];
      simplify_eq; no_new_key.
Qed.

End Server.

(** ** The server run on the reference socket *)

Module Runs.

Import Scenario.

Local Abbreviation serve :=
  (handle_request (App := unit) ref_translate ref_make_response ref_parse_qs
     ref_encode ref_compress ref_cors ref_gen_id ref_settings).

Local Abbreviation dispatch :=
  (route (App := unit) ref_parse_qs ref_encode ref_gen_id ref_settings).

Local Abbreviation handshake :=
  (_handle_connect (App := unit) ref_encode ref_gen_id ref_settings).

Local Abbreviation world table registered :=
  (mkWorld (Socket := RefSocket) (App := unit) table registered tt [] 0).

Local Abbreviation live sid fault :=
  (mkRefSocket sid false true [] fault).

(** The string operations on the values Python gives for them. *)
Example split_keeps_empty_fields :
  PyStr.split "," "gzip,, deflate" = ["gzip"; ""; " deflate"]
  /\ PyStr.split "," "" = [""].
Proof. split; reflexivity. Qed.

Example accepted_encodings_of_header :
  accepted_encodings {["ACCEPT_ENCODING" := " gzip;q=1.0 , deflate"]}
  = ["gzip"; "deflate"]
  /\ accepted_encodings ∅ = [""].
Proof. split; vm_compute; reflexivity. Qed.

Example b64_flag_values :
  b64_flag (ref_parse_qs "b64=TRUE") = true
  /\ b64_flag (ref_parse_qs "b64=1") = true
  /\ b64_flag (ref_parse_qs "b64=0") = false
  /\ b64_flag (ref_parse_qs "sid=abc") = false.
Proof. repeat split; vm_compute; reflexivity. Qed.

(** C10 at a table that holds ["abc"] only. *)
Lemma send_unknown_sid_run :
  exists w',
    send "xyz" "hello" None (world {["abc" := live "abc" Healthy]} ∅)
      = (Ok tt, w', []) /\
    sockets w' = {["abc" := live "abc" Healthy]}.
Proof.
  destruct (send_unknown_sid (world {["abc" := live "abc" Healthy]} ∅)
              "xyz" "hello" None) as (w' & Hrun & Htable & _).
  - vm_compute. reflexivity.
  - exists w'. split; assumption.
Defined.

(** C8 at a GET for ["xyz"] on a table that holds ["abc"] only. *)
Lemma get_unknown_sid_run :
  exists w' hs body,
    serve (mkRefRequest "GET" "sid=xyz&transport=polling" None)
      (world {["abc" := live "abc" Healthy]} ∅)
      = (Ok (Native (ref_make_response 400 hs body)), w', []) /\
    sockets w' = {["abc" := live "abc" Healthy]}.
Proof.
  refine (get_unknown_sid ref_translate ref_make_response ref_parse_qs
            ref_encode ref_compress ref_cors ref_gen_id ref_settings
            (mkRefRequest "GET" "sid=xyz&transport=polling" None)
            (world {["abc" := live "abc" Healthy]} ∅) "xyz" [] _ _ _).
  - vm_compute. reflexivity.
  - vm_compute. reflexivity.
  - vm_compute. reflexivity.
Defined.

(** C9 at [?transport=udp], and at a query without transport. *)
Lemma get_without_sid_transport_run :
  (exists w' hs body,
      serve (mkRefRequest "GET" "transport=udp" None) (world ∅ ∅)
        = (Ok (Native (ref_make_response 400 hs body)), w', []) /\
      sockets w' = sockets (world ∅ ∅) /\
      size (sockets w') = size (sockets (world ∅ ∅))) /\
  serve (mkRefRequest "GET" "b64=1" None) (world ∅ ∅)
  = bind (handshake (ref_translate (mkRefRequest "GET" "b64=1" None))
            "polling" true)
      (fun r =>
         ret (finalize ref_make_response ref_compress ref_cors ref_settings
                (ref_translate (mkRefRequest "GET" "b64=1" None)) r))
      (world ∅ ∅).
Proof.
  split.
  - refine (proj1 (get_without_sid_transport ref_translate ref_make_response
                     ref_parse_qs ref_encode ref_compress ref_cors ref_gen_id
                     ref_settings (mkRefRequest "GET" "transport=udp" None)
                     (world ∅ ∅) _ _) "udp" [] _ _ _);
      try (vm_compute; reflexivity); discriminate.
  - refine (proj2 (get_without_sid_transport ref_translate ref_make_response
                     ref_parse_qs ref_encode ref_compress ref_cors ref_gen_id
                     ref_settings (mkRefRequest "GET" "b64=1" None)
                     (world ∅ ∅) _ _) _ _);
      vm_compute; reflexivity.
Defined.

(** C9 as stated fails: a GET request without session id and without
    transport that carries the JSONP marker is answered with a 400, no
    call is made and no session is created, where the handshake for
    polling would have sent the OPEN packet. *)
Lemma jsonp_get_skips_handshake :
  let request := mkRefRequest "GET" "j=1" None in
  let environ := ref_translate request in
  let query := ref_parse_qs "j=1" in
  environ !! "REQUEST_METHOD" = Some "GET" /\
  query !! "sid" = None /\
  query !! "transport" = None /\
  fst (fst (serve request (world ∅ ∅)))
    = Ok (Native (400, [("Access-Control-Allow-Credentials", "true")], "")) /\
  sockets (snd (fst (serve request (world ∅ ∅)))) = ∅ /\
  snd (serve request (world ∅ ∅)) = [] /\
  serve request (world ∅ ∅)
  <> bind (handshake environ "polling" false)
       (fun r =>
          ret (finalize ref_make_response ref_compress ref_cors ref_settings
                 environ r))
       (world ∅ ∅).
Proof.
  repeat split; try (vm_compute; reflexivity).
  intros Heq. apply (f_equal (fun x => length (snd x))) in Heq.
  vm_compute in Heq. discriminate Heq.
Qed.

(** C7 at a get-handler that hands over a transport object. *)
Lemma non_descriptor_passes_through_run :
  exists w' evs,
    serve (mkRefRequest "GET" "sid=abc" None)
      (world {["abc" := live "abc" GetReturnsTakeover]} ∅)
    = (Ok (PassThrough (VObject "WebSocketResponse")), w', evs).
Proof.
  eexists _, _.
  refine (non_descriptor_passes_through ref_translate ref_make_response
            ref_parse_qs ref_encode ref_compress ref_cors ref_gen_id
            ref_settings (mkRefRequest "GET" "sid=abc" None)
            (world {["abc" := live "abc" GetReturnsTakeover]} ∅)
            _ (VObject "WebSocketResponse") _ _ _).
  - reflexivity.
  - reflexivity.
Defined.

(** C7 as stated fails: when the get-handler returns [None], the
    dispatcher's result is [None], which is not a dictionary, and
    [handle_request] returns the empty list in its place. *)
Lemma none_result_replaced_by_empty_list :
  let request := mkRefRequest "GET" "sid=abc" None in
  let w := world {["abc" := live "abc" GetReturnsNone]} ∅ in
  fst (fst (dispatch (ref_translate request) w)) = Ok VNone /\
  is_dict VNone = false /\
  fst (fst (serve request w)) = Ok (PassThrough (VList [])) /\
  fst (fst (serve request w)) <> Ok (PassThrough VNone).
Proof.
  repeat split; try (vm_compute; reflexivity).
  vm_compute. discriminate.
Qed.



(** C1 at a connect handler that returns [False]: the handshake for
    polling is answered with a 200 and the session stays in the table. *)
Lemma rejection_not_honoured_run :
  exists w' evs d,
    handshake ∅ "polling" false
      (world ∅ {["connect" :=
                   mkHandler false (fun _ _ a => (Ok (VBool false), a))]})
    = (Ok (VDict d), w', evs) /\
    status d = 200 /\
    is_Some (sockets w' !! "sid0").
Proof.
  edestruct (rejection_not_honoured ref_encode ref_gen_id ref_settings ∅
               false
               (world ∅ {["connect" :=
                   mkHandler false (fun _ _ a => (Ok (VBool false), a))]}))
    as (w' & evs & Hrun & Hstatus & Htable).
  - vm_compute. reflexivity.
  - reflexivity.
  - reflexivity.
  - reflexivity.
  - exists w', evs. eexists. split; [exact Hrun|]. split; [exact Hstatus|].
    cbv zeta in Htable.
    change (ref_gen_id (seed (world ∅ _))) with "sid0" in Htable.
    rewrite Htable. eauto.
Defined.

(** C3 at a table of two sockets that close without failure. *)
Lemma disconnect_closes_and_removes_run :
  let w := world (<["abc" := live "abc" Healthy]>
                    {["def" := live "def" Healthy]}) ∅ in
  sockets (snd (fst (disconnect None w))) = ∅ /\
  sockets (snd (fst (disconnect (Some "abc") w))) = delete "abc" (sockets w).
Proof.
  intros w.
  assert (forall k s, sockets w !! k = Some s -> fst (sock_close s) = Ok tt)
    as Hcloses.
  { intros k s Hk. cbn in Hk.
    apply lookup_insert_Some in Hk as [[_ <-]|[_ Hk]]; [reflexivity|].
    apply lookup_singleton_Some in Hk as [_ <-]. reflexivity. }
  split.
  - refine (proj1 (proj2 (proj1
      (disconnect_closes_and_removes w (snd (fst (disconnect None w))) None
         (fst (fst (disconnect None w))) (snd (disconnect None w)) _ _) _)));
      [discriminate
      |destruct (disconnect None w) as [[res w'] evs]; reflexivity
      |intros k s Hk _; exact (Hcloses k s Hk)].
  - refine (proj1 (proj2 (proj1
      (disconnect_closes_and_removes w
         (snd (fst (disconnect (Some "abc") w))) (Some "abc")
         (fst (fst (disconnect (Some "abc") w)))
         (snd (disconnect (Some "abc") w)) _ _) _)));
      [intros sid [= <-]; vm_compute; eauto
      |destruct (disconnect (Some "abc") w) as [[res w'] evs]; reflexivity
      |intros k s Hk _; exact (Hcloses k s Hk)].
Defined.

(** C3 as stated fails: a [close] that raises ends the bulk disconnect
    with that exception, and no entry has left the table. *)
Lemma close_failure_aborts_disconnect :
  let w := world (<["abc" := live "abc" CloseRaises]>
                    {["def" := live "def" Healthy]}) ∅ in
  fst (fst (disconnect None w)) = Raise (OtherError "ConnectionResetError") /\
  sockets (snd (fst (disconnect None w))) <> ∅ /\
  is_Some (sockets (snd (fst (disconnect None w))) !! "abc") /\
  is_Some (sockets (snd (fst (disconnect None w))) !! "def").
Proof.
  repeat split; try (vm_compute; eauto; fail).
  intros Hempty. apply (f_equal (fun m => m !! "abc")) in Hempty.
  vm_compute in Hempty. discriminate Hempty.
Qed.

(** C2 at a request that accepts deflate and gzip, in that order. *)
Lemma content_encoding_negotiated_run :
  let environ :=
    ref_translate (mkRefRequest "GET" "" (Some "deflate, gzip")) in
  let out :=
    assemble ref_compress ref_cors ref_settings environ
      (mkDescriptor 200 [] "hello") in
  (exists e, In ("Content-Encoding", e) (headers out)) /\
  status out = 200.
Proof.
  intros environ out.
  destruct (content_encoding_negotiated ref_make_response ref_compress
              ref_cors ref_settings environ (mkDescriptor 200 [] "hello"))
    as (_ & Hstatus & Hpresent & _).
  - intros e [Hin|[]]. discriminate Hin.
  - split; [|exact Hstatus]. apply Hpresent.
    split; [reflexivity|]. split; [vm_compute; discriminate|].
    exists "gzip". split; vm_compute; auto.
Defined.

(** C2 as stated fails: the server lists gzip before deflate and the
    request accepts both, deflate first; the header names deflate. *)
Lemma configured_order_not_followed :
  let environ :=
    ref_translate (mkRefRequest "GET" "" (Some "deflate, gzip")) in
  let out :=
    assemble ref_compress ref_cors ref_settings environ
      (mkDescriptor 200 [] "hello") in
  first_configured_match (compression_methods ref_settings)
    (accepted_encodings environ) = Some "gzip" /\
  In ("Content-Encoding", "deflate") (headers out) /\
  ~ In ("Content-Encoding", "gzip") (headers out) /\
  response out = ref_compress "deflate" "hello".
Proof.
  repeat split; try (vm_compute; auto; fail).
  vm_compute. intros [Hin|[Hin|[]]]; discriminate Hin.
Qed.

(** C4 at a table that holds ["abc"], with a connect handler. *)
Lemma handshake_entry_visible_run :
  let h := mkHandler false (fun _ _ a => (Ok VNone, a)) in
  let w := world {["abc" := live "abc" Healthy]} {["connect" := h]} in
  let pkt := open_packet ref_settings "sid0" "polling" in
  let run := handshake ∅ "polling" false w in
  is_Some (sockets (snd (fst run)) !! "sid0") /\
  sockets (snd (fst run)) !! "abc" = Some (live "abc" Healthy) /\
  exists rest',
    snd run
    = mkEvent (CallSend "sid0" pkt)
        (<["sid0" := ref_new "sid0"]> {["abc" := live "abc" Healthy]}) None
      :: mkEvent (CallHandler "connect" "sid0")
           (<["sid0" := mkRefSocket "sid0" false false [pkt] Healthy]>
              {["abc" := live "abc" Healthy]}) None
      :: rest'.
Proof.
  intros h w pkt run.
  pose proof (handshake_entry_visible ref_encode ref_gen_id ref_settings ∅
                "polling" false w) as Hvisible.
  cbv zeta in Hvisible. fold run in Hvisible.
  destruct Hvisible
    as ([s Hs] & _ & sent & rest & Hevs & Hsent & _ & _ & _ & _ & Hhandler).
  destruct (Hhandler h) as (rest' & Hrest & _);
    [reflexivity|vm_compute; reflexivity|].
  split; [|split].
  - rewrite Hs. change (ref_gen_id (seed w)) with "sid0".
    rewrite lookup_insert_eq. eauto.
  - rewrite Hs. change (ref_gen_id (seed w)) with "sid0".
    rewrite lookup_insert_ne by discriminate. reflexivity.
  - exists rest'. rewrite Hevs, Hsent, Hrest. reflexivity.
Defined.

End Runs.

(** ** The further properties on the reference and scripted sockets *)

Module MoreRuns.

Import Scenario Scripted.

Local Abbreviation serve :=
  (handle_request (Socket := RefSocket) (App := unit) ref_translate
     ref_make_response ref_parse_qs ref_encode ref_compress ref_cors
     ref_gen_id ref_settings).

Local Abbreviation serve_scripted :=
  (handle_request (Socket := ScriptedSocket) (App := unit) ref_translate
     ref_make_response ref_parse_qs ref_encode ref_compress ref_cors
     ref_gen_id ref_settings).

Local Abbreviation handshake :=
  (_handle_connect (Socket := RefSocket) (App := unit) ref_encode ref_gen_id
     ref_settings).

Local Abbreviation world table registered :=
  (mkWorld (Socket := RefSocket) (App := unit) table registered tt [] 0).

Local Abbreviation scripted_world table :=
  (mkWorld (Socket := ScriptedSocket) (App := unit) table ∅ tt [] 0).

Local Abbreviation live sid fault :=
  (mkRefSocket sid false true [] fault).

Local Abbreviation cors := [("Access-Control-Allow-Credentials", "true")].

Ltac settle :=
  first [vm_compute; reflexivity
        |discriminate
        |intros; vm_compute in *; discriminate].

(** X1 at a POST that names a live session and carries [j]. *)
Lemma jsonp_rejected_run :
  exists hs body,
    serve (mkRefRequest "POST" "j=1&sid=abc" None)
      (world {["abc" := live "abc" Healthy]} ∅)
    = (Ok (Native (ref_make_response 400 hs body)),
       mkWorld {["abc" := live "abc" Healthy]} ∅ tt
         ["JSONP requests are not supported"] 0,
       []).
Proof.
  refine (jsonp_rejected ref_translate ref_make_response ref_parse_qs
            ref_encode ref_compress ref_cors ref_gen_id ref_settings
            (mkRefRequest "POST" "j=1&sid=abc" None)
            (world {["abc" := live "abc" Healthy]} ∅) "POST" ("1", []) _ _);
    settle.
Defined.

(** X2 at an adapter that hands over an empty environment. *)
Lemma missing_method_raises_run :
  handle_request (Socket := RefSocket) (App := unit) (Request := unit)
    (fun _ => ∅) ref_make_response ref_parse_qs ref_encode ref_compress
    ref_cors ref_gen_id ref_settings tt (world ∅ ∅)
  = (Raise (KeyError "REQUEST_METHOD"), world ∅ ∅, []).
Proof.
  refine (missing_method_raises (fun _ => ∅) ref_make_response ref_parse_qs
            ref_encode ref_compress ref_cors ref_gen_id ref_settings tt
            (world ∅ ∅) _).
  settle.
Defined.

(** X3 at a PUT. *)
Lemma unsupported_method_run :
  exists hs body,
    serve (mkRefRequest "PUT" "sid=abc" None)
      (world {["abc" := live "abc" Healthy]} ∅)
    = (Ok (Native (ref_make_response 405 hs body)),
       mkWorld {["abc" := live "abc" Healthy]} ∅ tt
         ["Method PUT not supported"] 0,
       []).
Proof.
  refine (unsupported_method ref_translate ref_make_response ref_parse_qs
            ref_encode ref_compress ref_cors ref_gen_id ref_settings
            (mkRefRequest "PUT" "sid=abc" None)
            (world {["abc" := live "abc" Healthy]} ∅) "PUT" _ _ _ _);
    settle.
Defined.

(** X4 at a POST without session id, and at one for an unknown id. *)
Lemma post_without_session_run :
  (exists w' hs body,
      serve (mkRefRequest "POST" "" None)
        (world {["abc" := live "abc" Healthy]} ∅)
        = (Ok (Native (ref_make_response 400 hs body)), w', []) /\
      sockets w' = sockets (world {["abc" := live "abc" Healthy]} ∅)) /\
  (exists w' hs body,
      serve (mkRefRequest "POST" "sid=xyz" None)
        (world {["abc" := live "abc" Healthy]} ∅)
        = (Ok (Native (ref_make_response 400 hs body)), w', []) /\
      sockets w' = sockets (world {["abc" := live "abc" Healthy]} ∅)).
Proof.
  split.
  - refine (post_without_session ref_translate ref_make_response
              ref_parse_qs ref_encode ref_compress ref_cors ref_gen_id
              ref_settings (mkRefRequest "POST" "" None)
              (world {["abc" := live "abc" Healthy]} ∅) _ _); settle.
  - refine (post_without_session ref_translate ref_make_response
              ref_parse_qs ref_encode ref_compress ref_cors ref_gen_id
              ref_settings (mkRefRequest "POST" "sid=xyz" None)
              (world {["abc" := live "abc" Healthy]} ∅) _ _);
      [settle|].
    intros sid Hsid. vm_compute in Hsid. injection Hsid as <-. settle.
Defined.

(** X5 at a poll of a session with one queued message, asked in base64;
    the request accepts no encoding. *)
Lemma get_on_live_session_run :
  let queued := mkPacket MESSAGE (Message "hi") None in
  let s := mkRefSocket "abc" false true [queued] Healthy in
  serve (mkRefRequest "GET" "sid=abc&b64=1" None) (world {["abc" := s]} ∅)
  = (Ok (Native (200, cors, "4")),
     world {["abc" := ref_drain s]} ∅,
     [mkEvent (CallHandleGet "abc") {["abc" := s]} None]).
Proof.
  intros queued s.
  rewrite (get_on_live_session ref_translate ref_make_response ref_parse_qs
             ref_encode ref_compress ref_cors ref_gen_id ref_settings
             (mkRefRequest "GET" "sid=abc&b64=1" None)
             (world {["abc" := s]} ∅) "abc" [] s (ref_drain s)
             (VList [queued])) by settle.
  vm_compute. reflexivity.
Defined.

(** X6 at a get-handler that raises [KeyError]. *)
Lemma get_handler_exception_propagates_run :
  let s := mkScripted true (Ok tt) (Raise (KeyError "queue")) (Ok tt) in
  serve_scripted (mkRefRequest "GET" "sid=abc" None)
    (scripted_world {["abc" := s]})
  = (Raise (KeyError "queue"), scripted_world {["abc" := s]},
     [mkEvent (CallHandleGet "abc") {["abc" := s]}
        (Some (KeyError "queue"))]).
Proof.
  intros s.
  rewrite (get_handler_exception_propagates ref_translate ref_make_response
             ref_parse_qs ref_encode ref_compress ref_cors ref_gen_id
             ref_settings (mkRefRequest "GET" "sid=abc" None)
             (scripted_world {["abc" := s]}) "abc" [] s s
             (KeyError "queue")) by settle.
  vm_compute. reflexivity.
Defined.

(** X7 at a post-handler that raises [IOError]. *)
Lemma post_handler_exception_propagates_run :
  let s := mkScripted false (Ok tt) (Ok VNone) (Raise IOError) in
  serve_scripted (mkRefRequest "POST" "sid=abc" None)
    (scripted_world {["abc" := s]})
  = (Raise IOError, scripted_world {["abc" := s]},
     [mkEvent (CallHandlePost "abc") {["abc" := s]} (Some IOError)]).
Proof.
  intros s.
  rewrite (post_handler_exception_propagates ref_translate
             ref_make_response ref_parse_qs ref_encode ref_compress ref_cors
             ref_gen_id ref_settings (mkRefRequest "POST" "sid=abc" None)
             (scripted_world {["abc" := s]}) "abc" [] s s IOError)
    by settle.
  vm_compute. reflexivity.
Defined.

(** X8 at a GET that purges ["abc"]: ["def"] is as before. *)
Lemma request_touches_own_session_run :
  let w := world (<["abc" := live "abc" GetRaisesIOError]>
                    {["def" := live "def" Healthy]}) ∅ in
  sockets (snd (fst (serve (mkRefRequest "GET" "sid=abc" None) w))) !! "def"
    = Some (live "def" Healthy).
Proof.
  intros w.
  destruct (request_touches_own_session ref_translate ref_make_response
              ref_parse_qs ref_encode ref_compress ref_cors ref_gen_id
              ref_settings (mkRefRequest "GET" "sid=abc" None) w "def")
    as [Htable _]; [settle|settle|].
  rewrite Htable. vm_compute. reflexivity.
Defined.

(** X10 at a server without connect handler, whose cookie name is [io]. *)
Lemma polling_handshake_opens_session_run :
  exists w' evs hs,
    handshake ∅ "polling" false (world ∅ ∅)
      = (Ok (VDict (mkDescriptor 200 hs "0")), w', evs) /\
    size (sockets w') = 1%nat /\
    In ("Set-Cookie", "io=sid0") hs.
Proof.
  edestruct (polling_handshake_opens_session ref_encode ref_gen_id
               ref_settings ∅ false (world ∅ ∅))
    as (w' & evs & hs & Hrun & _ & Hsize & Hcookie).
  - reflexivity.
  - intros h Hh. vm_compute in Hh. discriminate Hh.
  - reflexivity.
  - exists w', evs, hs. split; [exact Hrun|]. split.
    + apply Hsize. vm_compute. reflexivity.
    + apply Hcookie. exists "io". repeat split. discriminate.
Defined.

(** X11 at the reference socket, whose get-handler returns its queue. *)
Lemma websocket_handshake_delegates_run :
  exists w' evs,
    handshake ∅ "websocket" false (world ∅ ∅)
      = (Ok (VList [open_packet ref_settings "sid0" "websocket"]), w', evs)
    /\ Forall (fun ev => ev_call ev <> CallPoll "sid0") evs.
Proof.
  edestruct (websocket_handshake_delegates ref_encode ref_gen_id
               ref_settings ∅ false (world ∅ ∅))
    as (w' & evs & Hrun & _ & Hpoll & _).
  - reflexivity.
  - intros h Hh. vm_compute in Hh. discriminate Hh.
  - reflexivity.
  - exists w', evs. split; [exact Hrun|exact Hpoll].
Defined.

(** X12 at a connect handler that raises. *)
Lemma failed_handshake_keeps_entry_run :
  let w := world ∅ {["connect" :=
             mkHandler true (fun _ _ a => (Raise (OtherError "Boom"), a))]} in
  fst (fst (handshake ∅ "polling" false w)) = Raise (OtherError "Boom") /\
  is_Some (sockets (snd (fst (handshake ∅ "polling" false w))) !! "sid0").
Proof.
  intros w. split; [vm_compute; reflexivity|].
  refine (proj1 (failed_handshake_keeps_entry ref_encode ref_gen_id
                   ref_settings ∅ "polling" false w
                   (snd (fst (handshake ∅ "polling" false w)))
                   (OtherError "Boom")
                   (snd (handshake ∅ "polling" false w)) _)).
  vm_compute. reflexivity.
Defined.

(** X14 at a healthy session. *)
Lemma send_to_live_session_run :
  let pkt := mkPacket MESSAGE (Message "hello") (Some false) in
  send "abc" "hello" (Some false) (world {["abc" := live "abc" Healthy]} ∅)
  = (Ok tt,
     world {["abc" := mkRefSocket "abc" false true [pkt] Healthy]} ∅,
     [mkEvent (CallSend "abc" pkt) {["abc" := live "abc" Healthy]} None]).
Proof.
  intros pkt.
  rewrite (send_to_live_session (world {["abc" := live "abc" Healthy]} ∅)
             "abc" "hello" (Some false) (live "abc" Healthy)) by settle.
  vm_compute. reflexivity.
Defined.

(** X15 at a table that holds ["abc"] only. *)
Lemma disconnect_unknown_sid_run :
  exists what,
    disconnect (Some "xyz") (world {["abc" := live "abc" Healthy]} ∅)
    = (Raise (KeyError what), world {["abc" := live "abc" Healthy]} ∅, []).
Proof.
  refine (disconnect_unknown_sid (world {["abc" := live "abc" Healthy]} ∅)
            "xyz" _).
  settle.
Defined.

(** X16 at a healthy session. *)
Lemma disconnected_session_is_unknown_run :
  let w := world {["abc" := live "abc" Healthy]} ∅ in
  let w' := snd (fst (disconnect (Some "abc") w)) in
  sockets w' !! "abc" = None /\
  (exists what,
      disconnect (Some "abc") w' = (Raise (KeyError what), w', [])) /\
  (exists w'', send "abc" "late" None w' = (Ok tt, w'', []) /\
               sockets w'' = sockets w').
Proof.
  intros w w'.
  refine (disconnected_session_is_unknown w w' "abc" "late" None
            (snd (disconnect (Some "abc") w)) _).
  vm_compute. reflexivity.
Defined.

(** X17 at an empty table. *)
Lemma handshake_then_disconnect_run :
  let w1 := snd (fst (handshake ∅ "polling" false (world ∅ ∅))) in
  exists w2 evs2,
    disconnect (Some "sid0") w1 = (Ok tt, w2, evs2) /\
    sockets w2 = ∅.
Proof.
  intros w1.
  refine (handshake_then_disconnect ref_encode ref_gen_id ref_settings ∅
            "polling" false (world ∅ ∅) w1
            (VDict (mkDescriptor 200 [("Set-Cookie", "io=sid0")] "0"))
            (snd (handshake ∅ "polling" false (world ∅ ∅))) _ _ _).
  - vm_compute. reflexivity.
  - vm_compute. reflexivity.
  - intros s Hs. vm_compute in Hs. injection Hs as <-. reflexivity.
Defined.

(** X19 at a header with a q-value and white space. *)
Lemma accepted_encodings_parse_run :
  accepted_encodings {["ACCEPT_ENCODING" := " gzip ;q=1.0, deflate"]}
  = ["gzip"; "deflate"].
Proof.
  refine (accepted_encodings_parse
            [(" ", "gzip", " ", Some "q=1.0"); (" ", "deflate", "", None)]
            {["ACCEPT_ENCODING" := " gzip ;q=1.0, deflate"]} _ _ _).
  - discriminate.
  - repeat constructor; try reflexivity;
      intros q Hq; try discriminate Hq; injection Hq as <-; reflexivity.
  - vm_compute. reflexivity.
Defined.

(** X21 at a GET for a live session. *)
Lemma request_with_sid_adds_no_session_run :
  let w := world {["abc" := live "abc" Healthy]} ∅ in
  seed (snd (fst (serve (mkRefRequest "GET" "sid=abc" None) w))) = 0%nat.
Proof.
  intros w.
  refine (proj1 (request_with_sid_adds_no_session ref_translate
                   ref_make_response ref_parse_qs ref_encode ref_compress
                   ref_cors ref_gen_id ref_settings
                   (mkRefRequest "GET" "sid=abc" None) w "abc" _)).
  vm_compute. reflexivity.
Defined.

End MoreRuns.
